(** * File Processing Automation System: a shallow embedding of [process.py]

    The development follows the layout of the Python source:
    - [Config]         the constants of [class Config];
    - [Codec]          the three text codecs named in [count_lines] and the
                       universal-newline line iterator of a text-mode file;
    - [FS]             the part of the filesystem the program queries
                       ([exists], [is_dir], [is_file], [os.access], [iterdir],
                       [stat], [open]);
    - [Exc]            Python exceptions as an error monad over a run state;
    - [FileProcessor]  [validate_inputs], [count_lines], [process_files],
                       [write_summary] and [run].

    The filesystem changes once while a run is executing: when logging
    is set up, the output folder and [processing.log] are made, and
    that is seen in the input folder when the output folder is the
    input folder or lies below it ([set_up]).  From then on it is a
    snapshot.  In the log of a run only the lines are kept into which
    the program's own data flows (the progress line of [process_files]);
    [_print_banner] and [_print_separator] are embedded on their own in
    [Banner]; check marks and the float-formatted sizes ([size_kb],
    [total_size_kb], [total_size_mb]) are presentation and are not
    embedded. *)

From Stdlib Require Import List Bool Arith Lia NArith String Ascii.
From Stdlib Require Import Sorting.Sorted Sorting.Permutation Sorting.Mergesort.
From Stdlib Require Import Strings.Byte DecimalString RelationClasses.
Import ListNotations.

Set Warnings "-register-all".

Local Open Scope string_scope.
Local Open Scope list_scope.

(* ------------------------------------------------------------------ *)
(** ** Configuration *)

Module Config.
Definition MIN_FILES_REQUIRED : nat := 1.
Definition MAX_FILE_SIZE_MB : nat := 100.
Definition SUMMARY_FILE : string := "summary.json".
Definition LOG_FILE : string := "processing.log".
End Config.

(* ------------------------------------------------------------------ *)
(** ** Text codecs and line iteration *)

Module Codec.

(** The encodings of the list literal in [count_lines], in source order. *)
Inductive encoding := UTF_8 | LATIN_1 | CP1252.

(** A decoded character is a Unicode code point. *)
Definition codepoint := N.

Definition byte_val (b : byte) : N := Byte.to_N b.

Definition in_range (lo hi n : N) : bool := ((lo <=? n) && (n <=? hi))%N.

(** Continuation byte 10xxxxxx. *)
Definition is_cont (b : byte) : bool := in_range 128 191 (byte_val b).

Definition cont_bits (b : byte) : N := (byte_val b - 128)%N.

(** Strict UTF-8, as Python's [utf-8] codec with [errors='strict']:
    shortest form only, no surrogates, nothing above U+10FFFF.  [None]
    stands for [UnicodeDecodeError]. *)
Fixpoint decode_utf8 (bs : list byte) : option (list codepoint) :=
  match bs with
  | [] => Some []
  | b0 :: r0 =>
    let n0 := byte_val b0 in
    if (n0 <? 128)%N then option_map (cons n0) (decode_utf8 r0)
    else if in_range 194 223 n0 then
      match r0 with
      | b1 :: r1 =>
        if is_cont b1
        then option_map (cons ((n0 - 192) * 64 + cont_bits b1)%N)
                        (decode_utf8 r1)
        else None
      | _ => None
      end
    else if in_range 224 239 n0 then
      match r0 with
      | b1 :: b2 :: r2 =>
        let lo := if (n0 =? 224)%N then 160%N else 128%N in
        let hi := if (n0 =? 237)%N then 159%N else 191%N in
        if in_range lo hi (byte_val b1) && is_cont b2
        then option_map
               (cons ((n0 - 224) * 4096 + cont_bits b1 * 64 + cont_bits b2)%N)
               (decode_utf8 r2)
        else None
      | _ => None
      end
    else if in_range 240 244 n0 then
      match r0 with
      | b1 :: b2 :: b3 :: r3 =>
        let lo := if (n0 =? 240)%N then 144%N else 128%N in
        let hi := if (n0 =? 244)%N then 143%N else 191%N in
        if in_range lo hi (byte_val b1) && is_cont b2 && is_cont b3
        then option_map
               (cons ((n0 - 240) * 262144 + cont_bits b1 * 4096
                      + cont_bits b2 * 64 + cont_bits b3)%N)
               (decode_utf8 r3)
        else None
      | _ => None
      end
    else None
  end.

(** [latin-1] maps byte [n] to code point [n]; it has no undefined byte. *)
Definition decode_latin1 (bs : list byte) : option (list codepoint) :=
  Some (map byte_val bs).

(** [cp1252] as Python ships it: 0x80..0x9F are remapped, and the five
    bytes 0x81, 0x8D, 0x8F, 0x90, 0x9D are undefined. *)
Definition cp1252_high : list (option codepoint) :=
  [ Some 8364; None;      Some 8218; Some 402;  Some 8222; Some 8230;
    Some 8224; Some 8225; Some 710;  Some 8240; Some 352;  Some 8249;
    Some 338;  None;      Some 381;  None;      None;      Some 8216;
    Some 8217; Some 8220; Some 8221; Some 8226; Some 8211; Some 8212;
    Some 732;  Some 8482; Some 353;  Some 8250; Some 339;  None;
    Some 382;  Some 376 ]%N.

Definition cp1252_char (b : byte) : option codepoint :=
  let n := byte_val b in
  if in_range 128 159 n
  then nth (N.to_nat (n - 128)) cp1252_high None
  else Some n.

Fixpoint decode_cp1252 (bs : list byte) : option (list codepoint) :=
  match bs with
  | [] => Some []
  | b :: r =>
    match cp1252_char b with
    | Some c => option_map (cons c) (decode_cp1252 r)
    | None => None
    end
  end.

Definition decode (e : encoding) : list byte -> option (list codepoint) :=
  match e with
  | UTF_8 => decode_utf8
  | LATIN_1 => decode_latin1
  | CP1252 => decode_cp1252
  end.

Definition LF : codepoint := 10%N.
Definition CR : codepoint := 13%N.

(** Iterating a file opened with [open(path, 'r')] (universal newlines):
    a line ends at LF, at CR, or at CR LF, each handed out as LF; a
    last line without terminator is handed out when it is not empty.
    [cur] is the line being read, most recent character first. *)
Fixpoint lines_from (cur : list codepoint) (cs : list codepoint)
  : list (list codepoint) :=
  match cs with
  | [] => match cur with [] => [] | _ => [rev cur] end
  | c :: rest =>
    if (c =? LF)%N then rev (LF :: cur) :: lines_from [] rest
    else if (c =? CR)%N then
      match rest with
      | c' :: rest' =>
        if (c' =? LF)%N then rev (LF :: cur) :: lines_from [] rest'
        else rev (LF :: cur) :: lines_from [] rest
      | [] => [rev (LF :: cur)]
      end
    else lines_from (c :: cur) rest
  end.

Definition readlines (cs : list codepoint) : list (list codepoint) :=
  lines_from [] cs.

(** Bytes of an ASCII string literal. *)
Definition bytes_of (s : string) : list byte := list_byte_of_string s.

End Codec.

(* ------------------------------------------------------------------ *)
(** ** Strings *)

Definition nl : string := String (ascii_of_nat 10) EmptyString.
Definition dquote : string := String (ascii_of_nat 34) EmptyString.

(** [str(n)] and [f"{n}"] for a non-negative [int]. *)
Definition str_nat (n : nat) : string := NilEmpty.string_of_uint (Nat.to_uint n).

(** [sep.join(parts)]. *)
Definition join (sep : string) (parts : list string) : string :=
  String.concat sep parts.

Fixpoint ends_with_slash (s : string) : bool :=
  match s with
  | EmptyString => false
  | String c EmptyString => Ascii.eqb c "/"%char
  | String _ rest => ends_with_slash rest
  end.

(* ------------------------------------------------------------------ *)
(** ** The filesystem, as far as the program looks at it *)

Module FS.

(** What [stat], [os.access] and [open] answer for a regular file.
    [content = None]: opening or reading the file raises an [OSError]
    (an I/O error, a lock, a permission lost after the check). *)
Record FileData := {
  st_size : nat;
  st_mtime : string;            (* already formatted '%Y-%m-%d %H:%M:%S' *)
  access_R : bool;              (* os.access(f, os.R_OK) *)
  content : option (list byte)
}.

(** A directory entry.  [Special] is anything for which both [is_file()]
    and [is_dir()] answer [False] (socket, FIFO, dangling link). *)
Inductive Node :=
| RegFile (f : FileData)
| Directory (readable : bool) (children : list (string * Node))
| Special.

(** A [Path] below the input folder: its [name] and what it points to. *)
Definition item : Type := string * Node.

Definition name (it : item) : string := fst it.

Definition is_file (n : Node) : bool :=
  match n with RegFile _ => true | _ => false end.

Definition is_dir (n : Node) : bool :=
  match n with Directory _ _ => true | _ => false end.

(** [Path.exists()], [Path.is_dir()] and [os.access(p, os.R_OK)] on a
    path that may point to nothing. *)
Definition path_exists (p : option Node) : bool :=
  match p with Some _ => true | None => false end.

Definition path_is_dir (p : option Node) : bool :=
  match p with Some n => is_dir n | None => false end.

(** The answer for [Special] is never looked at: the program asks for
    the access right of the input path only once it knows that it is a
    directory, and of a child only once it knows that it is a file. *)
Definition os_access_R (p : option Node) : bool :=
  match p with
  | Some (RegFile f) => access_R f
  | Some (Directory r _) => r
  | Some Special => true
  | None => false
  end.

(** [parent / name], rendered by [absolute()]. *)
Definition child_abs (parent : string) (nm : string) : string :=
  (if ends_with_slash parent then parent ++ nm else parent ++ "/" ++ nm)%string.

End FS.

(* ------------------------------------------------------------------ *)
(** ** The summary *)

(** The dictionaries of [process_files], key by key.  The keys
    ["size_kb"], ["total_size_kb"] and ["total_size_mb"] hold rounded
    floats and are left out. *)
Record FileRecord := {
  fr_name : string;                 (* "name" *)
  fr_size_bytes : nat;              (* "size_bytes" *)
  fr_type : string;                 (* "type": "text" or "binary" *)
  fr_line_count : option nat;       (* "line_count": an int or None *)
  fr_modified : string              (* "modified" *)
}.

Record ProcessingInfo := {
  timestamp : string;
  pi_input_folder : string;
  pi_output_folder : string
}.

Record Statistics := {
  total_files : nat;
  text_files : nat;
  binary_files : nat;
  total_size_bytes : nat;
  total_lines : nat
}.

Record Summary := {
  processing_info : ProcessingInfo;
  statistics : Statistics;
  files : list FileRecord
}.

(* ------------------------------------------------------------------ *)
(** ** Exceptions and the state a run acts on *)

Module Exc.

Inductive exception :=
| ValidationError (msg : string)
| OSError (msg : string)
| RuntimeError (msg : string).

Inductive result (A : Type) :=
| Ok (a : A)
| Raise (e : exception).
Arguments Ok {A} a.
Arguments Raise {A} e.

(** What a run leaves behind: the progress lines handed to the logger,
    oldest first, and the complete summary that [summary.json] in the
    output folder holds ([None]: the file is not there, or is empty, or
    holds a dump that was cut short). *)
Record RunState := {
  log : list string;
  summary_json : option Summary
}.

Definition M (A : Type) : Type := RunState -> result A * RunState.

Definition ret {A} (a : A) : M A := fun s => (Ok a, s).

Definition raise {A} (e : exception) : M A := fun s => (Raise e, s).

Definition bind {A B} (m : M A) (k : A -> M B) : M B :=
  fun s =>
    match m s with
    | (Ok a, s') => k a s'
    | (Raise e, s') => (Raise e, s')
    end.

(** [try: body  except Exception as e: handler(e)] *)
Definition try_except {A} (body : M A) (handler : exception -> M A) : M A :=
  fun s =>
    match body s with
    | (Ok a, s') => (Ok a, s')
    | (Raise e, s') => handler e s'
    end.

Definition logger_info (line : string) : M unit :=
  fun s => (Ok tt, {| log := log s ++ [line]; summary_json := summary_json s |}).

Definition dump_summary (sm : Summary) : M unit :=
  fun s => (Ok tt, {| log := log s; summary_json := Some sm |}).

(** [open(summary_path, 'w')] has emptied the file and the dump did not
    get to its end. *)
Definition cut_short_summary : M unit :=
  fun s => (Ok tt, {| log := log s; summary_json := None |}).

Definition initial : RunState := {| log := []; summary_json := None |}.

End Exc.

Declare Scope exc_scope.
Delimit Scope exc_scope with exc.
Notation "x <- m ;; k" := (Exc.bind m (fun x => k))
  (at level 100, m at next level, right associativity) : exc_scope.
Notation "m ;;; k" := (Exc.bind m (fun _ => k))
  (at level 100, right associativity) : exc_scope.

Local Open Scope exc_scope.

(* ------------------------------------------------------------------ *)
(** ** One invocation: the arguments and the world it runs in *)

(** Where the output folder lies, seen from the input folder. *)
Inductive Placement :=
| Apart                  (* not the input folder and not below it *)
| SameFolder             (* the input folder itself *)
| Below (child : string) (* below the input folder, in or under [child] *).

Record World := {
  input_folder : string;            (* str(self.input_folder.absolute()) *)
  output_folder : string;           (* str(self.output_folder.absolute()) *)
  input_before : option FS.Node;    (* what the input path points to when
                                       the run starts *)
  output_place : Placement;
  log_file : FS.FileData;           (* what stat, os.access and open answer
                                       for processing.log during the run *)
  now : string;                     (* datetime.now(), formatted *)
  setup_fault : option string;      (* [Some e]: mkdir or the log file
                                       raise e for a reason that the
                                       listing of the input folder does
                                       not show (rights, disk, what lies
                                       deeper) *)
  write_error : option string;      (* [Some e]: writing summary.json
                                       raises e *)
  write_opened : bool               (* that error comes after
                                       open(summary_path, 'w') succeeded *)
}.

(** *** What [setup_logging] does to the input folder

    Lines 75 to 84 run before anything looks at the input:
    [self.output_folder.mkdir(parents=True, exist_ok=True)] and
    [logging.FileHandler(log_file, mode='w')].  When the output folder
    is the input folder or lies below it, they change what the input
    path points to: they create a missing input folder, they create the
    first folder on the way down to the output folder, they create or
    empty [processing.log]. *)

Definition named (nm : string) (it : FS.item) : bool := String.eqb (fst it) nm.

(** An entry of that name is in the way: it is not a regular file
    ([open(..., 'w')] raises), or not a directory ([mkdir] raises).  A
    special entry of that name is taken to make the call raise. *)
Definition blocks_file (nm : string) (items : list FS.item) : bool :=
  existsb (fun it => named nm it && negb (FS.is_file (snd it))) items.

Definition blocks_dir (nm : string) (items : list FS.item) : bool :=
  existsb (fun it => named nm it && negb (FS.is_dir (snd it))) items.

(** [open(log_file, 'w')] in a folder holding [items]: an existing
    regular file stays where it is in the listing and is now the log
    file; otherwise the log file is a new entry. *)
Definition put_log (lf : FS.FileData) (items : list FS.item)
  : option (list FS.item) :=
  if blocks_file Config.LOG_FILE items then None
  else if existsb (named Config.LOG_FILE) items
  then Some (map (fun it => if named Config.LOG_FILE it
                            then (fst it, FS.RegFile lf) else it) items)
  else Some (items ++ [(Config.LOG_FILE, FS.RegFile lf)]).

(** [mkdir(exist_ok=True)] of [child] in a folder holding [items]. *)
Definition put_dir (child : string) (items : list FS.item)
  : option (list FS.item) :=
  if blocks_dir child items then None
  else if existsb (named child) items then Some items
  else Some (items ++ [(child, FS.Directory true [])]).

Inductive setup_result :=
| SetupRaises (e : string)
| SetupDone (input_after : option FS.Node).

Definition set_up (w : World) : setup_result :=
  match setup_fault w with
  | Some e => SetupRaises e
  | None =>
    match output_place w with
    | Apart => SetupDone (input_before w)
    | SameFolder =>
      match input_before w with
      | None =>
        SetupDone (Some (FS.Directory true
                           [(Config.LOG_FILE, FS.RegFile (log_file w))]))
      | Some (FS.Directory r items) =>
        match put_log (log_file w) items with
        | Some items' => SetupDone (Some (FS.Directory r items'))
        | None => SetupRaises "EISDIR"
        end
      | Some _ => SetupRaises "EEXIST"
      end
    | Below child =>
      match input_before w with
      | None =>
        SetupDone (Some (FS.Directory true [(child, FS.Directory true [])]))
      | Some (FS.Directory r items) =>
        match put_dir child items with
        | Some items' => SetupDone (Some (FS.Directory r items'))
        | None => SetupRaises "EEXIST"
        end
      | Some _ => SetupRaises "ENOTDIR"
      end
    end
  end.

(** What [setup_logging] raises, if it raises. *)
Definition setup_error (w : World) : option string :=
  match set_up w with
  | SetupRaises e => Some e
  | SetupDone _ => None
  end.

(** What the input path points to once logging is set up: this is what
    [validate_inputs] and [process_files] find, both run after
    [setup_logging] and need its logger. *)
Definition input_node (w : World) : option FS.Node :=
  match set_up w with
  | SetupDone n => n
  | SetupRaises _ => input_before w
  end.

(** [sorted] on the paths of one folder compares their names, character
    by character. *)
Module PathOrder <: Orders.TotalLeBool.
Definition t : Type := string * FS.FileData.
Definition leb (a b : t) : bool := String.leb (fst a) (fst b).
Lemma leb_total (a b : t) : leb a b = true \/ leb b a = true.
Proof. apply String.leb_total. Qed.
End PathOrder.

Module PathSort := Sort PathOrder.

(* ------------------------------------------------------------------ *)
(** ** class FileProcessor *)

Module FileProcessor.
Import Exc FS.

(** [self.input_folder.iterdir()], in the order the filesystem gives. *)
Definition iterdir (w : World) : M (list item) :=
  match input_node w with
  | Some (Directory true items) => ret items
  | Some (Directory false _) => raise (OSError "EACCES")
  | Some _ => raise (OSError "ENOTDIR")
  | None => raise (OSError "ENOENT")
  end.

(** [[item for item in all_items if item.is_file()]], each file kept
    with what [stat], [os.access] and [open] will answer for it. *)
Definition files_of (all_items : list item) : list (string * FileData) :=
  flat_map (fun it => match snd it with
                      | RegFile f => [(fst it, f)]
                      | _ => []
                      end) all_items.

(** [[item for item in all_items if item.is_dir()]] *)
Definition folders_of (all_items : list item) : list item :=
  filter (fun it => is_dir (snd it)) all_items.

(** Lines 75 to 84: the output folder and the log file are made, or
    making them raises.  What this leaves of the input folder is
    [input_node w]. *)
Definition setup_logging (w : World) : M unit :=
  match set_up w with
  | SetupRaises e => raise (OSError e)
  | SetupDone _ => ret tt
  end.

(** *** validate_inputs *)

Definition msg_not_found (w : World) : string :=
  ("Input folder not found: " ++ input_folder w)%string.

Definition msg_not_directory (w : World) : string :=
  ("Path is not a directory: " ++ input_folder w)%string.

Definition msg_cannot_read_folder (w : World) : string :=
  ("Cannot read folder: " ++ input_folder w)%string.

Definition folder_names (folders : list item) : list string :=
  let shown := map name (firstn 5 folders) in
  if (5 <? List.length folders)%nat
  then shown ++ [("... and " ++ str_nat (List.length folders - 5) ++ " more")%string]
  else shown.

Definition msg_no_files (w : World) (all_items : list item) : string :=
  let files := files_of all_items in
  let folders := folders_of all_items in
  let error_parts :=
    [ ("Input folder must contain at least "
         ++ str_nat Config.MIN_FILES_REQUIRED ++ " file(s).")%string;
      ("Found: " ++ str_nat (List.length files) ++ " file(s)")%string ] in
  let error_parts :=
    match folders with
    | first :: _ =>
      error_parts ++
      [ ("Found " ++ str_nat (List.length folders) ++ " subfolder(s): "
           ++ join ", " (folder_names folders))%string;
        (nl ++ "Note: The system only processes files in the root input folder.")%string;
        "Files inside subfolders are NOT processed.";
        (nl ++ "Suggestion: Move files from subfolders to the input folder root,")%string;
        ("or run the script directly on the subfolder: python process.py -i "
           ++ dquote ++ child_abs (input_folder w) (name first) ++ dquote)%string ]
    | [] =>
      if (List.length all_items =? 0)%nat
      then error_parts ++ ["The folder is completely empty."]
      else error_parts
    end in
  join nl error_parts.

Definition unreadable_of (files : list (string * FileData)) : list string :=
  map fst (filter (fun f => negb (access_R (snd f))) files).

Definition msg_unreadable (unreadable : list string) : string :=
  ("Cannot read files: " ++ join ", " unreadable)%string.

Definition validate_inputs (w : World) : M unit :=
  (* Check 1: Input folder exists *)
  if negb (path_exists (input_node w))
  then raise (ValidationError (msg_not_found w))
  (* Check 2: Input folder is a directory *)
  else if negb (path_is_dir (input_node w))
  then raise (ValidationError (msg_not_directory w))
  (* Check 3: Input folder is readable *)
  else if negb (os_access_R (input_node w))
  then raise (ValidationError (msg_cannot_read_folder w))
  else
    (* Check 4: Input folder contains files *)
    all_items <- iterdir w ;;
    let files := files_of all_items in
    if (List.length files <? Config.MIN_FILES_REQUIRED)%nat
    then raise (ValidationError (msg_no_files w all_items))
    else
      (* Check 5: Files are readable *)
      let unreadable := unreadable_of files in
      match unreadable with
      | _ :: _ => raise (ValidationError (msg_unreadable unreadable))
      | [] => ret tt
      end.

(** *** count_lines *)

(** One pass of the inner [try]: the file is opened with one encoding
    and its lines are counted. *)
Inductive attempt :=
| Counted (n : nat)
| UnicodeDecodeError
| OtherError.

Definition open_and_count (enc : Codec.encoding) (f : FileData) : attempt :=
  match content f with
  | None => OtherError
  | Some bs =>
    match Codec.decode enc bs with
    | Some cs => Counted (List.length (Codec.readlines cs))
    | None => UnicodeDecodeError
    end
  end.

(** The [for encoding in ...] loop inside the outer [try]. *)
Fixpoint try_encodings (encs : list Codec.encoding) (f : FileData)
  : option nat :=
  match encs with
  | [] => None
  | enc :: rest =>
    match open_and_count enc f with
    | Counted n => Some n
    | UnicodeDecodeError => try_encodings rest f
    | OtherError => None
    end
  end.

Definition encodings : list Codec.encoding :=
  [Codec.UTF_8; Codec.LATIN_1; Codec.CP1252].

Definition count_lines (f : FileData) : option nat :=
  try_encodings encodings f.

(** *** process_files *)

(** The variables the loop of [process_files] updates. *)
Record Acc := {
  file_stats : list FileRecord;
  total_size : nat;
  acc_total_lines : nat;            (* total_lines *)
  acc_text_files : nat;             (* text_files *)
  acc_binary_files : nat            (* binary_files *)
}.

Definition acc0 : Acc :=
  {| file_stats := []; total_size := 0; acc_total_lines := 0;
     acc_text_files := 0; acc_binary_files := 0 |}.

(** [enumerate(l, start)] *)
Definition enumerate {A} (l : list A) (start : nat) : list (nat * A) :=
  combine (seq start (List.length l)) l.

(** [f"  [{idx}/{len(files)}] {file_path.name}"] *)
Definition progress_line (idx total : nat) (nm : string) : string :=
  ("  [" ++ str_nat idx ++ "/" ++ str_nat total ++ "] " ++ nm)%string.

Definition file_info (nm : string) (f : FileData) (file_type : string)
           (line_count : option nat) : FileRecord :=
  {| fr_name := nm;
     fr_size_bytes := st_size f;
     fr_type := file_type;
     fr_line_count := line_count;
     fr_modified := st_mtime f |}.

(** The body of [for idx, file_path in enumerate(files, 1)]. *)
Definition loop_body (n_files : nat) (acc : Acc)
           (it : nat * (string * FileData)) : M Acc :=
  let '(idx, (nm, f)) := it in
  logger_info (progress_line idx n_files nm) ;;;
  let file_size := st_size f in
  let total_size' := total_size acc + file_size in
  let line_count := count_lines f in
  match line_count with
  | Some n =>
    ret {| file_stats := file_stats acc ++ [file_info nm f "text" line_count];
           total_size := total_size';
           acc_total_lines := acc_total_lines acc + n;
           acc_text_files := acc_text_files acc + 1;
           acc_binary_files := acc_binary_files acc |}
  | None =>
    ret {| file_stats := file_stats acc ++ [file_info nm f "binary" line_count];
           total_size := total_size';
           acc_total_lines := acc_total_lines acc;
           acc_text_files := acc_text_files acc;
           acc_binary_files := acc_binary_files acc + 1 |}
  end.

Fixpoint for_each {A S} (body : S -> A -> M S) (l : list A) (s : S) : M S :=
  match l with
  | [] => ret s
  | x :: rest => s' <- body s x ;; for_each body rest s'
  end.

Definition process_files (w : World) : M Summary :=
  all_items <- iterdir w ;;
  let files := PathSort.sort (files_of all_items) in
  acc <- for_each (loop_body (List.length files)) (enumerate files 1) acc0 ;;
  ret {| processing_info :=
           {| timestamp := now w;
              pi_input_folder := input_folder w;
              pi_output_folder := output_folder w |};
         statistics :=
           {| total_files := List.length files;
              text_files := acc_text_files acc;
              binary_files := acc_binary_files acc;
              total_size_bytes := total_size acc;
              total_lines := acc_total_lines acc |};
         files := file_stats acc |}.

(** *** write_summary *)

Definition exc_str (e : exception) : string :=
  match e with
  | ValidationError m => m
  | OSError m => m
  | RuntimeError m => m
  end.

(** [open(summary_path, 'w')] may raise, and leaves the file alone; once
    it has succeeded the file is empty, and [json.dump] may raise part
    of the way, leaving a dump that is cut short. *)
Definition write_summary (w : World) (summary : Summary) : M unit :=
  try_except
    (match write_error w with
     | Some e =>
       (if write_opened w then cut_short_summary else ret tt) ;;;
       raise (OSError e)
     | None => dump_summary summary
     end)
    (fun e => raise (RuntimeError ("Failed to write summary: " ++ exc_str e)%string)).

(** *** run *)

(** The body of the [try] in [run]. *)
Definition pipeline (w : World) : M nat :=
  setup_logging w ;;;
  validate_inputs w ;;;
  summary <- process_files w ;;
  write_summary w summary ;;;
  ret 0.

Definition run (w : World) : M nat :=
  try_except (pipeline w)
    (fun e => match e with
              | ValidationError _ => ret 1
              | _ => ret 2
              end).

End FileProcessor.

(* ------------------------------------------------------------------ *)
(** ** Vocabulary of the properties *)

Module Props.
Import Exc FS FileProcessor.

(** [s] occurs in [t]. *)
Definition occurs (s t : string) : Prop :=
  exists a b, t = (a ++ s ++ b)%string.

Fixpoint contains (s t : string) : bool :=
  String.prefix s t ||
  match t with
  | EmptyString => false
  | String _ t' => contains s t'
  end.

(** The five checks of the validator, named as the specification
    numbers them, each as a question about the world. *)
Inductive check :=
| LocationExists
| LocationIsDirectory
| LocationReadable
| HasRegularFile
| FilesReadable.

Definition checks_in_order : list check :=
  [LocationExists; LocationIsDirectory; LocationReadable;
   HasRegularFile; FilesReadable].

(** The direct children of the input location (none when it is not a
    directory). *)
Definition listing (w : World) : list item :=
  match input_node w with
  | Some (Directory _ items) => items
  | _ => []
  end.

Definition holds (w : World) (c : check) : bool :=
  match c with
  | LocationExists => path_exists (input_node w)
  | LocationIsDirectory => path_is_dir (input_node w)
  | LocationReadable => os_access_R (input_node w)
  | HasRegularFile => (1 <=? List.length (files_of (listing w)))%nat
  | FilesReadable => forallb (fun f => access_R (snd f)) (files_of (listing w))
  end.

Definition message (w : World) (c : check) : string :=
  match c with
  | LocationExists => msg_not_found w
  | LocationIsDirectory => msg_not_directory w
  | LocationReadable => msg_cannot_read_folder w
  | HasRegularFile => msg_no_files w (listing w)
  | FilesReadable => msg_unreadable (unreadable_of (files_of (listing w)))
  end.

(** How the message of each check begins. *)
Definition message_start (c : check) : string :=
  match c with
  | LocationExists => "Input folder not found: "
  | LocationIsDirectory => "Path is not a directory: "
  | LocationReadable => "Cannot read folder: "
  | HasRegularFile => "Input folder must contain at least 1 file(s)."
  | FilesReadable => "Cannot read files: "
  end.

(** The validator as the specification words it: the checks in order,
    the first one that fails decides. *)
Definition first_failure (w : World) : option check :=
  find (fun c => negb (holds w c)) checks_in_order.

Definition spec_validate (w : World) : result unit :=
  match first_failure w with
  | Some c => Raise (ValidationError (message w c))
  | None => Ok tt
  end.

(** Two listings with the same direct children, whose subdirectories
    may hold different things. *)
Inductive same_entry : item -> item -> Prop :=
| same_node (it : item) : same_entry it it
| same_subdir (nm : string) (r : bool) (c c' : list (string * Node)) :
    same_entry (nm, Directory r c) (nm, Directory r c').

Definition same_direct_children : list item -> list item -> Prop :=
  Forall2 same_entry.

(** Folds over the records of a summary. *)
Definition sum_sizes (rs : list FileRecord) : nat :=
  list_sum (map fr_size_bytes rs).

Definition is_text (r : FileRecord) : bool := String.eqb (fr_type r) "text".

Definition lines_of (r : FileRecord) : nat :=
  match fr_line_count r with Some n => n | None => 0 end.

Definition sum_text_lines (rs : list FileRecord) : nat :=
  list_sum (map lines_of (filter is_text rs)).

(** What the loop of [process_files] keeps true of its variables. *)
Definition totals_agree (acc : Acc) : Prop :=
  total_size acc = sum_sizes (file_stats acc) /\
  acc_total_lines acc = sum_text_lines (file_stats acc) /\
  List.length (file_stats acc) = acc_text_files acc + acc_binary_files acc.

Definition name_le (a b : FileRecord) : Prop :=
  String.leb (fr_name a) (fr_name b) = true.

(** The record the loop of [process_files] makes of one file. *)
Definition record_of (it : string * FileData) : FileRecord :=
  file_info (fst it) (snd it)
            (match count_lines (snd it) with Some _ => "text" | None => "binary" end)
            (count_lines (snd it)).

(** The progress lines a pass over [rs] writes. *)
Definition progress_lines (rs : list FileRecord) : list string :=
  map (fun p => progress_line (fst p) (List.length rs) (fr_name (snd p)))
      (enumerate rs 1).

(** *** Worlds used as examples *)

Definition file_data (size : nat) (c : option (list byte)) : FileData :=
  {| st_size := size; st_mtime := "2024-05-01 10:00:00";
     access_R := true; content := c |}.

Definition file_with (size : nat) (bs : list byte) : Node :=
  RegFile (file_data size (Some bs)).

(** An invocation whose output folder lies apart from the input folder
    and in which nothing fails. *)
Definition world_of (n : option Node) : World :=
  {| input_folder := "/data/input"; output_folder := "/data/output";
     input_before := n; output_place := Apart;
     log_file := file_data 0 (Some []);
     now := "2024-05-02 09:30:00";
     setup_fault := None; write_error := None; write_opened := false |}.

(** The same invocation, the input path pointing at a directory that
    holds [items] when the run starts. *)
Definition with_items (w : World) (r : bool) (items : list item) : World :=
  {| input_folder := input_folder w; output_folder := output_folder w;
     input_before := Some (Directory r items);
     output_place := output_place w; log_file := log_file w;
     now := now w;
     setup_fault := setup_fault w; write_error := write_error w;
     write_opened := write_opened w |}.

Definition a_txt : Node :=
  file_with 12 (Codec.bytes_of ("line1" ++ nl ++ "line2" ++ nl)%string).

(** Two bytes that neither UTF-8 nor Windows-1252 can decode. *)
Definition b_bin : Node := file_with 2 [xff; x81].

Definition scenario : World :=
  world_of (Some (Directory true [("b.bin", b_bin); ("a.txt", a_txt)])).

Definition six_subfolders : World :=
  world_of (Some (Directory true
    [("s1", Directory true []); ("s2", Directory true []);
     ("s3", Directory true [("nested.txt", a_txt)]);
     ("s4", Directory true []); ("s5", Directory true []);
     ("s6", Directory true [])])).

Definition unreadable_empty : World := world_of (Some (Directory false [])).

(** An empty, readable input folder that is also the output folder. *)
Definition output_in_input : World :=
  {| input_folder := "/data/both"; output_folder := "/data/both";
     input_before := Some (Directory true []); output_place := SameFolder;
     log_file := file_data 8 (Some (Codec.bytes_of ("started" ++ nl)%string));
     now := "2024-05-02 09:30:00";
     setup_fault := None; write_error := None; write_opened := false |}.

(** An empty, readable input folder with the output folder inside it. *)
Definition output_below_input : World :=
  {| input_folder := "/data/input"; output_folder := "/data/input/out";
     input_before := Some (Directory true []); output_place := Below "out";
     log_file := file_data 0 (Some []);
     now := "2024-05-02 09:30:00";
     setup_fault := None; write_error := None; write_opened := false |}.

End Props.

(* ------------------------------------------------------------------ *)
(** ** Banners *)

(** [_print_banner] and [_print_separator].  The texts the program
    passes are ASCII literals, so a byte is a column. *)
Module Banner.
Import Exc.

Definition BANNER_WIDTH : nat := 60.

(** [s * n] *)
Fixpoint times (s : string) (n : nat) : string :=
  match n with
  | O => EmptyString
  | S k => (s ++ times s k)%string
  end.

(** [f"{text:^{width}}"]: the text is left alone when it fills the
    width; otherwise half of the padding, rounded down, goes to the
    left and the rest to the right. *)
Definition center (text : string) (width : nat) : string :=
  let n := String.length text in
  if (width <=? n)%nat then text
  else
    let total := width - n in
    let left := Nat.div total 2 in
    (times " " left ++ text ++ times " " (total - left))%string.

Definition _print_banner (text : string) : M unit :=
  logger_info (times "=" BANNER_WIDTH) ;;;
  logger_info (center text BANNER_WIDTH) ;;;
  logger_info (times "=" BANNER_WIDTH).

Definition _print_separator : M unit :=
  logger_info (times "-" BANNER_WIDTH).

End Banner.

(* ------------------------------------------------------------------ *)
(** ** Counting, for the properties of lines and records *)

Module Counting.
Import Codec.

(** How often the code point [x] stands in [cs]. *)
Definition count_cp (x : codepoint) (cs : list codepoint) : nat :=
  List.length (filter (N.eqb x) cs).

(** How often a CR is directly followed by an LF. *)
Fixpoint crlf_pairs (cs : list codepoint) : nat :=
  match cs with
  | [] => 0
  | c :: rest =>
    match rest with
    | c' :: _ => if ((c =? CR) && (c' =? LF))%N then 1 else 0
    | [] => 0
    end + crlf_pairs rest
  end.

(** The text is not empty and its last character ends no line. *)
Definition unterminated (cs : list codepoint) : bool :=
  match cs with
  | [] => false
  | _ => let c := last cs LF in (negb (c =? LF) && negb (c =? CR))%N
  end.

Definition is_binary (r : FileRecord) : bool := String.eqb (fr_type r) "binary".

(** An input the validator lets through: a readable directory with at
    least one regular file directly in it and no unreadable one. *)
Definition valid_input (w : World) : Prop :=
  exists items,
    input_node w = Some (FS.Directory true items) /\
    (exists nm fd, In (nm, FS.RegFile fd) items) /\
    (forall nm fd, In (nm, FS.RegFile fd) items -> FS.access_R fd = true).

End Counting.

Import Exc FS FileProcessor Props.

(* ================================================================== *)
(** * Properties *)

(** ** The codecs *)

Example utf8_ascii : Codec.decode_utf8 (Codec.bytes_of "ab") = Some [97; 98]%N.
Proof. reflexivity. Qed.

(** U+20AC in three bytes. *)
Example utf8_euro : Codec.decode_utf8 [xe2; x82; xac] = Some [8364%N].
Proof. reflexivity. Qed.

(** U+1F600 in four bytes. *)
Example utf8_four_bytes :
  Codec.decode_utf8 [xf0; x9f; x98; x80] = Some [128512%N].
Proof. reflexivity. Qed.

(** An overlong form and a surrogate are refused. *)
Example utf8_strict :
  Codec.decode_utf8 [xc0; x80] = None /\ Codec.decode_utf8 [xed; xa0; x80] = None.
Proof. split; reflexivity. Qed.

Example readlines_mixed :
  List.length (Codec.readlines [97; 13; 10; 98; 13; 99; 10; 100]%N) = 4.
Proof. reflexivity. Qed.

Lemma latin1_total (bs : list byte) :
  Codec.decode Codec.LATIN_1 bs = Some (map Codec.byte_val bs).
Proof. reflexivity. Qed.

(** ** The classifier: [count_lines] *)

Section Classifier.

Variable f : FileData.

Lemma try_encodings_io_error (encs : list Codec.encoding) :
  content f = None -> try_encodings encs f = None.
Proof.
  intros Hc. destruct encs as [|e encs]; simpl; [reflexivity|].
  unfold open_and_count. now rewrite Hc.
Qed.

Lemma try_encodings_skip (bs : list byte) (tried rest : list Codec.encoding) :
  content f = Some bs ->
  Forall (fun e => Codec.decode e bs = None) tried ->
  try_encodings (tried ++ rest) f = try_encodings rest f.
Proof.
  intros Hc Hfail. induction Hfail as [|e tried He _ IH]; simpl; [reflexivity|].
  unfold open_and_count. now rewrite Hc, He.
Qed.

Lemma try_encodings_first_success
      (bs : list byte) (tried later : list Codec.encoding)
      (enc : Codec.encoding) (cs : list Codec.codepoint) :
  content f = Some bs ->
  Forall (fun e => Codec.decode e bs = None) tried ->
  Codec.decode enc bs = Some cs ->
  try_encodings (tried ++ enc :: later) f
  = Some (List.length (Codec.readlines cs)).
Proof.
  intros Hc Hfail Hdec.
  rewrite (try_encodings_skip bs tried (enc :: later) Hc Hfail).
  simpl. unfold open_and_count. now rewrite Hc, Hdec.
Qed.

Lemma try_encodings_all_fail (bs : list byte) (encs : list Codec.encoding) :
  content f = Some bs ->
  Forall (fun e => Codec.decode e bs = None) encs ->
  try_encodings encs f = None.
Proof.
  intros Hc Hfail.
  rewrite <- (app_nil_r encs).
  now rewrite (try_encodings_skip bs encs [] Hc Hfail).
Qed.

End Classifier.

(** What one turn of the loop of [process_files] does to its variables
    and to the log. *)
Lemma loop_body_spec (n : nat) (acc : Acc) (idx : nat) (nm : string)
      (f : FileData) (s : RunState) :
  exists acc',
    loop_body n acc (idx, (nm, f)) s
    = (Ok acc', {| log := log s ++ [progress_line idx n nm];
                   summary_json := summary_json s |}) /\
    file_stats acc' = file_stats acc ++ [record_of (nm, f)] /\
    total_size acc' = total_size acc + st_size f /\
    acc_total_lines acc'
    = acc_total_lines acc + match count_lines f with Some k => k | None => 0 end /\
    acc_text_files acc'
    = acc_text_files acc + match count_lines f with Some _ => 1 | None => 0 end /\
    acc_binary_files acc'
    = acc_binary_files acc + match count_lines f with Some _ => 0 | None => 1 end.
Proof.
  unfold loop_body, record_of, bind, logger_info, ret. simpl.
  destruct (count_lines f) as [k|]; eexists; (split; [reflexivity|]); simpl;
    repeat split; lia.
Qed.

(** C10. Latin-1 has a character for every byte, so the second turn of
    the loop never fails.  A file whose bytes can be read always gets a
    line count (that of its UTF-8 reading when the bytes are valid UTF-8,
    that of its Latin-1 reading otherwise) and is recorded as "text".
    Whatever stands after Latin-1 in the list is never tried, there are
    no bytes that all three encodings refuse, and the classifier answers
    [None] exactly when reading the file raises an error. *)
Theorem latin1_accepts_everything :
  (forall f bs,
      content f = Some bs ->
      count_lines f
      = Some (List.length
                (Codec.readlines
                   (match Codec.decode_utf8 bs with
                    | Some cs => cs
                    | None => map Codec.byte_val bs
                    end)))) /\
  (forall f bs n acc idx nm s,
      content f = Some bs ->
      exists acc' s' k,
        loop_body n acc (idx, (nm, f)) s = (Ok acc', s') /\
        file_stats acc' = file_stats acc ++ [file_info nm f "text" (Some k)]) /\
  (forall f later,
      try_encodings ([Codec.UTF_8; Codec.LATIN_1] ++ later) f
      = try_encodings [Codec.UTF_8; Codec.LATIN_1] f) /\
  (forall bs, ~ Forall (fun e => Codec.decode e bs = None) encodings) /\
  (forall f, count_lines f = None <-> content f = None).
Proof.
  assert (Hcount : forall f bs,
             content f = Some bs ->
             count_lines f
             = Some (List.length
                       (Codec.readlines
                          (match Codec.decode_utf8 bs with
                           | Some cs => cs
                           | None => map Codec.byte_val bs
                           end)))).
  { intros f bs Hc. unfold count_lines, encodings. simpl.
    unfold open_and_count. rewrite Hc. simpl.
    destruct (Codec.decode_utf8 bs); reflexivity. }
  split; [exact Hcount|]. split; [|split; [|split]].
  - intros f bs n acc idx nm s Hc.
    destruct (loop_body_spec n acc idx nm f s) as (acc' & Hrun & Hstats & _).
    exists acc'. eexists. eexists. split; [exact Hrun|].
    rewrite Hstats. unfold record_of. simpl.
    rewrite (Hcount f bs Hc). reflexivity.
  - intros f later. simpl. unfold open_and_count.
    destruct (content f) as [bs|]; [|reflexivity]. simpl.
    destruct (Codec.decode_utf8 bs); reflexivity.
  - intros bs Hall. unfold encodings in Hall.
    inversion Hall as [|? ? _ Hrest]; subst.
    inversion Hrest as [|? ? Hlatin _]; subst.
    discriminate Hlatin.
  - intros f. split.
    + intros Hnone. destruct (content f) as [bs|] eqn:Hc; [|reflexivity].
      rewrite (Hcount f bs Hc) in Hnone. discriminate.
    + apply try_encodings_io_error.
Qed.

Lemma latin1_accepts_everything_witness :
  count_lines (file_data 2 (Some [xff; x81])) = Some 1 /\
  exists acc' s' k,
    loop_body 2 acc0 (2, ("b.bin", file_data 2 (Some [xff; x81]))) initial
    = (Ok acc', s') /\
    file_stats acc'
    = file_stats acc0
      ++ [file_info "b.bin" (file_data 2 (Some [xff; x81])) "text" (Some k)].
Proof.
  destruct latin1_accepts_everything as (Hcount & Hloop & _).
  split.
  - apply (Hcount (file_data 2 (Some [xff; x81])) [xff; x81]). reflexivity.
  - apply (Hloop (file_data 2 (Some [xff; x81])) [xff; x81]). reflexivity.
Defined.

(** ** The validator: [validate_inputs] *)

Lemma unreadable_of_nil (files : list (string * FileData)) :
  unreadable_of files = [] <-> forallb (fun f => access_R (snd f)) files = true.
Proof.
  unfold unreadable_of. induction files as [|x files IH]; simpl.
  - tauto.
  - destruct (access_R (snd x)); simpl.
    + exact IH.
    + split; discriminate.
Qed.

Lemma message_begins (w : World) (c : check) :
  exists rest, message w c = (message_start c ++ rest)%string.
Proof.
  destruct c; simpl;
    try (unfold msg_not_found, msg_not_directory, msg_cannot_read_folder,
         msg_unreadable; eexists; reflexivity).
  unfold msg_no_files.
  destruct (folders_of (listing w)) as [|first folders].
  - destruct (List.length (listing w) =? 0)%nat; eexists; reflexivity.
  - eexists; reflexivity.
Qed.

Lemma append_prefix_true (a b : string) : String.prefix a (a ++ b) = true.
Proof.
  induction a as [|c a IH]; simpl.
  - now destruct b.
  - destruct (ascii_dec c c) as [_|Hne]; [exact IH | now elim Hne].
Qed.

Lemma message_start_decides (c c' : check) :
  String.prefix (message_start c) (message_start c') = true -> c = c'.
Proof. destruct c, c'; simpl; intros H; solve [reflexivity | discriminate H]. Qed.

Lemma append_eq_prefix (a b r r' : string) :
  (a ++ r)%string = (b ++ r')%string ->
  String.prefix a b = true \/ String.prefix b a = true.
Proof.
  revert b. induction a as [|x a IH]; intros [|y b] Heq; simpl in *; auto.
  injection Heq as -> Heq.
  destruct (ascii_dec y y) as [_|Hne]; [auto | now elim Hne].
Qed.

Lemma messages_differ (w w' : World) (c c' : check) :
  c <> c' -> message w c <> message w' c'.
Proof.
  intros Hne Heq.
  destruct (message_begins w c) as [r Hr], (message_begins w' c') as [r' Hr'].
  rewrite Hr, Hr' in Heq.
  destruct (append_eq_prefix _ _ _ _ Heq) as [H|H];
    apply message_start_decides in H; congruence.
Qed.

(** The validator as the source writes it does what the five ordered
    checks say, and leaves the run state alone. *)
Lemma validate_inputs_refines (w : World) (s : RunState) :
  validate_inputs w s = (spec_validate w, s).
Proof.
  unfold validate_inputs, spec_validate, first_failure, checks_in_order,
    iterdir, bind, raise, ret, holds, message, listing.
  destruct (input_node w) as [[fd|r items|]|]; simpl; try reflexivity.
  destruct r; simpl; [|reflexivity].
  destruct (files_of items) as [|x files] eqn:Hfiles; simpl; [reflexivity|].
  destruct (unreadable_of (x :: files)) as [|u us] eqn:Hun.
  - apply unreadable_of_nil in Hun. simpl in Hun. now rewrite Hun.
  - assert (Hfalse : forallb (fun f => access_R (snd f)) (x :: files) = false).
    { destruct (forallb _ (x :: files)) eqn:Hall; [|reflexivity].
      apply unreadable_of_nil in Hall. congruence. }
    simpl in Hfalse. now rewrite Hfalse.
Qed.

(** C3. The validator asks five questions in a fixed order (the location
    exists, is a directory, is readable, holds at least one regular file
    directly, and each such file is readable) and the first one answered
    "no" ends it with a [ValidationError] carrying the message of that
    check; no two checks share a message.  When all five pass it returns
    nothing and changes nothing. *)
Theorem validate_inputs_checks_in_order :
  checks_in_order
  = [LocationExists; LocationIsDirectory; LocationReadable;
     HasRegularFile; FilesReadable] /\
  (forall w s,
      validate_inputs w s
      = (match find (fun c => negb (holds w c)) checks_in_order with
         | Some c => Raise (ValidationError (message w c))
         | None => Ok tt
         end, s)) /\
  (forall w w' c c', c <> c' -> message w c <> message w' c').
Proof.
  split; [reflexivity|]. split.
  - exact validate_inputs_refines.
  - exact messages_differ.
Qed.

Lemma validate_inputs_checks_in_order_witness :
  validate_inputs scenario initial = (Ok tt, initial) /\
  validate_inputs unreadable_empty initial
  = (Raise (ValidationError "Cannot read folder: /data/input"), initial) /\
  message scenario LocationReadable <> message unreadable_empty HasRegularFile.
Proof.
  destruct validate_inputs_checks_in_order as (_ & Hrun & Hdiff).
  split; [|split].
  - rewrite (Hrun scenario initial). reflexivity.
  - rewrite (Hrun unreadable_empty initial). reflexivity.
  - apply Hdiff. discriminate.
Defined.

(** ** Ordering of names and of sorted lists *)

Lemma string_leb_trans (a b c : string) :
  String.leb a b = true -> String.leb b c = true -> String.leb a c = true.
Proof.
  unfold String.leb. revert b c.
  induction a as [|x a IH]; intros [|y b] [|z c]; simpl; try easy.
  unfold Ascii.compare.
  destruct (N.compare_spec (N_of_ascii x) (N_of_ascii y)) as [Hxy|Hxy|Hxy];
    destruct (N.compare_spec (N_of_ascii y) (N_of_ascii z)) as [Hyz|Hyz|Hyz];
    destruct (N.compare_spec (N_of_ascii x) (N_of_ascii z)) as [Hxz|Hxz|Hxz];
    try easy; try lia.
  apply IH.
Qed.

Section SortedUnique.

Variable A : Type.
Variable R : A -> A -> Prop.

(** Two sorted arrangements of the same elements are the same list,
    when [R] cannot hold both ways between different elements. *)
Lemma sorted_permutation_unique (l1 l2 : list A) :
  StronglySorted R l1 ->
  StronglySorted R l2 ->
  Permutation l1 l2 ->
  (forall a b, In a l1 -> In b l1 -> R a b -> R b a -> a = b) ->
  l1 = l2.
Proof.
  intros S1. revert l2.
  induction S1 as [|a l1 S1 IH Ha]; intros l2 S2 Hperm Hanti.
  - apply Permutation_nil in Hperm. now subst.
  - destruct l2 as [|b l2].
    + apply Permutation_sym, Permutation_nil in Hperm. discriminate.
    + inversion S2 as [|? ? S2' Hb]; subst.
      assert (Hab : a = b).
      { assert (Hin_b : In b (a :: l1)).
        { apply Permutation_in with (b :: l2);
            [now apply Permutation_sym | now left]. }
        assert (Hin_a : In a (b :: l2)).
        { apply Permutation_in with (a :: l1); [assumption | now left]. }
        destruct Hin_b as [Heq|Hin_b]; [assumption|].
        destruct Hin_a as [Heq|Hin_a]; [now symmetry|].
        rewrite Forall_forall in Ha, Hb.
        apply Hanti; [now left | now right | now apply Ha | now apply Hb]. }
      subst b. f_equal.
      apply IH.
      * assumption.
      * now apply Permutation_cons_inv with a.
      * intros x y Hx Hy. apply Hanti; now right.
Qed.

End SortedUnique.

Lemma keys_identify {A B : Type} (l : list (A * B)) (x y : A * B) :
  NoDup (map fst l) -> In x l -> In y l -> fst x = fst y -> x = y.
Proof.
  induction l as [|z l IH]; intros Hnd Hx Hy Hfst; [easy|].
  simpl in Hnd. inversion Hnd as [|? ? Hnotin Hnd']; subst.
  destruct Hx as [->|Hx], Hy as [->|Hy].
  - reflexivity.
  - elim Hnotin. rewrite Hfst. now apply in_map.
  - elim Hnotin. rewrite <- Hfst. now apply in_map.
  - now apply IH.
Qed.

Lemma PathOrder_transitive : Transitive (fun a b => is_true (PathOrder.leb a b)).
Proof. intros a b c. unfold PathOrder.leb, is_true. apply string_leb_trans. Qed.

(** [sorted] does not depend on the order its argument comes in, as long
    as no two paths of the folder carry the same name. *)
Lemma sort_order_independent (l l' : list (string * FileData)) :
  NoDup (map fst l) ->
  Permutation l l' ->
  PathSort.sort l = PathSort.sort l'.
Proof.
  intros Hnd Hperm.
  apply sorted_permutation_unique with (R := fun a b => is_true (PathOrder.leb a b)).
  - apply PathSort.StronglySorted_sort, PathOrder_transitive.
  - apply PathSort.StronglySorted_sort, PathOrder_transitive.
  - eapply Permutation_trans; [apply Permutation_sym, PathSort.Permuted_sort|].
    eapply Permutation_trans; [exact Hperm | apply PathSort.Permuted_sort].
  - intros a b Ha Hb Hab Hba.
    assert (Hin : forall x, In x (PathSort.sort l) -> In x l).
    { intros x. apply Permutation_in, Permutation_sym, PathSort.Permuted_sort. }
    apply (keys_identify l); auto.
    now apply String.leb_antisym.
Qed.

Lemma files_of_app (l1 l2 : list item) :
  files_of (l1 ++ l2) = files_of l1 ++ files_of l2.
Proof. unfold files_of. apply flat_map_app. Qed.

Lemma files_of_permutation (l l' : list item) :
  Permutation l l' -> Permutation (files_of l) (files_of l').
Proof.
  induction 1 as [|x l l' _ IH|x y l|l l' l'' _ IH1 _ IH2].
  - constructor.
  - change (x :: l) with ([x] ++ l). change (x :: l') with ([x] ++ l').
    rewrite !files_of_app. now apply Permutation_app_head.
  - change (y :: x :: l) with ([y] ++ [x] ++ l).
    change (x :: y :: l) with ([x] ++ [y] ++ l).
    rewrite !files_of_app, !app_assoc.
    apply Permutation_app_tail, Permutation_app_comm.
  - now apply Permutation_trans with (files_of l').
Qed.

Lemma files_of_names (l : list item) :
  NoDup (map fst l) -> NoDup (map fst (files_of l)).
Proof.
  induction l as [|[nm n] l IH]; simpl; intros Hnd; [constructor|].
  inversion Hnd as [|? ? Hnotin Hnd']; subst.
  assert (Hsub : forall x, In x (map fst (files_of l)) -> In x (map fst l)).
  { intros x Hx. apply in_map_iff in Hx. destruct Hx as ([k fd] & <- & Hin).
    unfold files_of in Hin. apply in_flat_map in Hin.
    destruct Hin as ([k' n'] & Hin & Hk). simpl in Hk.
    destruct n'; simpl in Hk; try easy.
    destruct Hk as [Hk|[]]. injection Hk as -> ->.
    apply in_map_iff. now exists (k, RegFile fd). }
  destruct n; simpl; auto.
  constructor; auto.
Qed.

(** ** The aggregator: [process_files] *)

Lemma sum_sizes_snoc (rs : list FileRecord) (r : FileRecord) :
  sum_sizes (rs ++ [r]) = sum_sizes rs + fr_size_bytes r.
Proof. unfold sum_sizes. rewrite map_app, list_sum_app. simpl. lia. Qed.

Lemma sum_text_lines_snoc (rs : list FileRecord) (r : FileRecord) :
  sum_text_lines (rs ++ [r])
  = sum_text_lines rs + (if is_text r then lines_of r else 0).
Proof.
  unfold sum_text_lines. rewrite filter_app, map_app, list_sum_app. simpl.
  destruct (is_text r); simpl; lia.
Qed.

Lemma loop_body_preserves (n : nat) (acc acc' : Acc)
      (it : nat * (string * FileData)) (s s' : RunState) :
  totals_agree acc ->
  loop_body n acc it s = (Ok acc', s') ->
  totals_agree acc'.
Proof.
  destruct it as (idx & nm & f). intros (Hsize & Hlines & Hcount) Hrun.
  destruct (loop_body_spec n acc idx nm f s)
    as (acc1 & Hrun1 & Hstats & Hsz & Hln & Htx & Hbn).
  rewrite Hrun1 in Hrun. injection Hrun as <- <-.
  unfold totals_agree.
  rewrite Hstats, sum_sizes_snoc, sum_text_lines_snoc, length_app.
  unfold record_of, is_text, lines_of. simpl.
  destruct (count_lines f); simpl; repeat split; lia.
Qed.

Lemma for_each_preserves (n : nat) (l : list (nat * (string * FileData))) :
  forall acc s acc' s',
    totals_agree acc ->
    for_each (loop_body n) l acc s = (Ok acc', s') ->
    totals_agree acc'.
Proof.
  induction l as [|it l IH]; intros acc s acc' s' Hinv Hrun; simpl in Hrun.
  - unfold ret in Hrun. now injection Hrun as <- <-.
  - unfold bind in Hrun.
    destruct (loop_body n acc it s) as [[acc1|e] s1] eqn:Hbody; [|discriminate].
    eapply IH; [|exact Hrun].
    eapply loop_body_preserves; eassumption.
Qed.

(** The whole loop: it never raises, appends one record per file in the
    order of the list, and logs one progress line per file. *)
Lemma for_each_spec (n : nat) (l : list (string * FileData)) :
  forall k acc s,
  exists acc',
    for_each (loop_body n) (combine (seq k (List.length l)) l) acc s
    = (Ok acc',
       {| log := log s ++ map (fun p => progress_line (fst p) n (fst (snd p)))
                              (combine (seq k (List.length l)) l);
          summary_json := summary_json s |}) /\
    file_stats acc' = file_stats acc ++ map record_of l.
Proof.
  induction l as [|[nm f] l IH]; intros k acc s;
    cbn [List.length seq combine for_each map fst snd].
  - exists acc. unfold ret. rewrite !app_nil_r. destruct s; auto.
  - destruct (loop_body_spec n acc k nm f s) as (acc1 & Hrun1 & Hstats & _).
    destruct (IH (S k) acc1
                 {| log := log s ++ [progress_line k n nm];
                    summary_json := summary_json s |})
      as (acc' & Hrun & Hstats').
    exists acc'. unfold bind. rewrite Hrun1, Hrun. simpl.
    rewrite <- !app_assoc. split; [reflexivity|].
    rewrite Hstats', Hstats, <- app_assoc. reflexivity.
Qed.

Lemma progress_lines_of_records (n : nat) (l : list (string * FileData)) (k : nat) :
  map (fun p => progress_line (fst p) n (fr_name (snd p)))
      (combine (seq k (List.length (map record_of l))) (map record_of l))
  = map (fun p => progress_line (fst p) n (fst (snd p)))
        (combine (seq k (List.length l)) l).
Proof.
  revert k. induction l as [|it l IH]; intros k; simpl; [reflexivity|].
  now rewrite IH.
Qed.

(** What [process_files] returns when the input is a readable folder. *)
Lemma process_files_spec (w : World) (items : list item) (s : RunState) :
  input_node w = Some (Directory true items) ->
  exists acc,
    totals_agree acc /\
    file_stats acc = map record_of (PathSort.sort (files_of items)) /\
    process_files w s
    = (Ok {| processing_info :=
               {| timestamp := now w;
                  pi_input_folder := input_folder w;
                  pi_output_folder := output_folder w |};
             statistics :=
               {| total_files := List.length (PathSort.sort (files_of items));
                  text_files := acc_text_files acc;
                  binary_files := acc_binary_files acc;
                  total_size_bytes := total_size acc;
                  total_lines := acc_total_lines acc |};
             files := file_stats acc |},
       {| log := log s ++ progress_lines (file_stats acc);
          summary_json := summary_json s |}).
Proof.
  intros Hnode.
  set (sorted := PathSort.sort (files_of items)).
  destruct (for_each_spec (List.length sorted) sorted 1 acc0 s)
    as (acc & Hrun & Hstats).
  exists acc. split; [|split].
  - eapply for_each_preserves; [|exact Hrun].
    unfold totals_agree, acc0. simpl. auto.
  - exact Hstats.
  - unfold process_files, iterdir, bind, ret. rewrite Hnode. simpl.
    fold sorted. unfold enumerate. rewrite Hrun.
    unfold progress_lines, enumerate. simpl in Hstats. rewrite Hstats.
    rewrite progress_lines_of_records, length_map. reflexivity.
Qed.

(** ** The whole run *)

Lemma validated_is_readable_directory (w : World) :
  spec_validate w = Ok tt ->
  exists items, input_node w = Some (Directory true items).
Proof.
  unfold spec_validate, first_failure, checks_in_order, holds, listing.
  destruct (input_node w) as [[fd|[] items|]|]; simpl; try discriminate.
  intros _. now exists items.
Qed.

Lemma spec_validate_raises (w : World) (e : exception) :
  spec_validate w = Raise e -> exists m, e = ValidationError m.
Proof.
  unfold spec_validate. destruct (first_failure w) as [c|]; [|discriminate].
  intros H. injection H as <-. eauto.
Qed.

Lemma setup_logging_by_error (w : World) :
  setup_logging w
  = match setup_error w with
    | Some e => raise (OSError e)
    | None => ret tt
    end.
Proof. unfold setup_logging, setup_error. destruct (set_up w); reflexivity. Qed.

Lemma run_setup_fails (w : World) (s : RunState) (e : string) :
  setup_error w = Some e -> run w s = (Ok 2, s).
Proof.
  intros He. unfold run, try_except, pipeline, bind.
  now rewrite setup_logging_by_error, He.
Qed.

Lemma run_validation_fails (w : World) (s : RunState) (m : string) :
  setup_error w = None ->
  spec_validate w = Raise (ValidationError m) ->
  run w s = (Ok 1, s).
Proof.
  intros Hsetup Hval.
  unfold run, try_except, pipeline, bind.
  rewrite setup_logging_by_error, Hsetup. unfold ret.
  now rewrite validate_inputs_refines, Hval.
Qed.

Lemma run_after_validation (w : World) (s : RunState) :
  setup_error w = None ->
  spec_validate w = Ok tt ->
  exists sm s1,
    process_files w s = (Ok sm, s1) /\
    run w s = match write_error w with
              | Some _ =>
                (Ok 2, if write_opened w
                       then {| log := log s1; summary_json := None |}
                       else s1)
              | None => (Ok 0, {| log := log s1; summary_json := Some sm |})
              end.
Proof.
  intros Hsetup Hval.
  destruct (validated_is_readable_directory w Hval) as [items Hnode].
  destruct (process_files_spec w items s Hnode) as (acc & _ & _ & Hrun).
  eexists. eexists. split; [exact Hrun|].
  unfold run, try_except, pipeline, bind.
  rewrite setup_logging_by_error, Hsetup. unfold ret.
  rewrite validate_inputs_refines, Hval, Hrun.
  unfold write_summary, try_except, bind, dump_summary, cut_short_summary,
    raise, ret.
  destruct (write_error w); [|reflexivity].
  destruct (write_opened w); reflexivity.
Qed.

(** C4. In the summary of every run that ends with status 0 the number
    of files is the number of text files plus the number of binary
    files, the total size is the sum of the sizes of the records, and
    the total of lines is the sum of the line counts of the records
    whose type is "text". *)
Theorem totals_invariant (w : World) (s s' : RunState) :
  run w s = (Ok 0, s') ->
  exists sm,
    summary_json s' = Some sm /\
    total_files (statistics sm)
    = text_files (statistics sm) + binary_files (statistics sm) /\
    total_size_bytes (statistics sm) = sum_sizes (files sm) /\
    total_lines (statistics sm) = sum_text_lines (files sm).
Proof.
  intros Hrun.
  destruct (setup_error w) as [e|] eqn:Hsetup.
  { rewrite (run_setup_fails w s e Hsetup) in Hrun. discriminate. }
  destruct (spec_validate w) as [[]|e] eqn:Hval.
  2:{ destruct (spec_validate_raises w e Hval) as [m ->].
      rewrite (run_validation_fails w s m Hsetup Hval) in Hrun. discriminate. }
  destruct (validated_is_readable_directory w Hval) as [items Hnode].
  destruct (process_files_spec w items s Hnode)
    as (acc & (Hsize & Hlines & Hcount) & Hstats & Hproc).
  destruct (run_after_validation w s Hsetup Hval) as (sm & s1 & Hproc' & Hrun').
  rewrite Hproc in Hproc'. injection Hproc' as <- <-.
  rewrite Hrun' in Hrun.
  destruct (write_error w); [discriminate|].
  injection Hrun as <-. simpl.
  eexists. split; [reflexivity|]. simpl.
  repeat split; try assumption.
  rewrite <- Hcount, Hstats, length_map. reflexivity.
Qed.

Lemma totals_invariant_witness :
  exists sm,
    summary_json (snd (run scenario initial)) = Some sm /\
    total_files (statistics sm)
    = text_files (statistics sm) + binary_files (statistics sm) /\
    total_size_bytes (statistics sm) = sum_sizes (files sm) /\
    total_lines (statistics sm) = sum_text_lines (files sm).
Proof.
  apply (totals_invariant scenario initial (snd (run scenario initial))).
  vm_compute. reflexivity.
Defined.

(** C1, on the code.  The folder holds [a.txt] (two lines of UTF-8) and
    [b.bin] (the bytes FF 81, which neither UTF-8 nor Windows-1252
    decodes).  The run succeeds; [a.txt] is recorded as "text" with 2
    lines, and so is [b.bin], with 1 line, because Latin-1 decodes it:
    2 text files, 0 binary files, 3 lines. *)
Theorem scenario_text_and_undecodable :
  Codec.decode Codec.UTF_8 [xff; x81] = None /\
  Codec.decode Codec.CP1252 [xff; x81] = None /\
  exists s',
    run scenario initial = (Ok 0, s') /\
    option_map statistics (summary_json s')
    = Some {| total_files := 2; text_files := 2; binary_files := 0;
              total_size_bytes := 14; total_lines := 3 |} /\
    option_map files (summary_json s')
    = Some [ {| fr_name := "a.txt"; fr_size_bytes := 12; fr_type := "text";
                fr_line_count := Some 2;
                fr_modified := "2024-05-01 10:00:00" |};
             {| fr_name := "b.bin"; fr_size_bytes := 2; fr_type := "text";
                fr_line_count := Some 1;
                fr_modified := "2024-05-01 10:00:00" |} ].
Proof.
  split; [reflexivity|]. split; [reflexivity|].
  eexists. split; [vm_compute; reflexivity|]. split; reflexivity.
Qed.

(** C8. A run always ends with one of three statuses.  It is 0 when
    logging is set up, validation passes, the files are processed and
    the summary is written; 1 when validation raises its
    [ValidationError]; 2 when another exception is raised, at set-up or
    when the summary cannot be written.  Whatever the body of the run
    raises is mapped the same way: [ValidationError] to 1, anything else
    to 2. *)
Theorem run_exit_status (w : World) (s : RunState) :
  (exists code s',
      run w s = (Ok code, s') /\
      ((code = 0 /\
        setup_logging w s = (Ok tt, s) /\
        validate_inputs w s = (Ok tt, s) /\
        exists sm s1,
          process_files w s = (Ok sm, s1) /\
          write_summary w sm s1 = (Ok tt, s') /\
          summary_json s' = Some sm)
       \/
       (code = 1 /\
        setup_logging w s = (Ok tt, s) /\
        exists m, validate_inputs w s = (Raise (ValidationError m), s))
       \/
       (code = 2 /\
        ((exists e, setup_logging w s = (Raise (OSError e), s)) \/
         (setup_logging w s = (Ok tt, s) /\
          validate_inputs w s = (Ok tt, s) /\
          exists sm s1 m,
            process_files w s = (Ok sm, s1) /\
            write_summary w sm s1 = (Raise (RuntimeError m), s')))))) /\
  (forall e s',
      pipeline w s = (Raise e, s') ->
      run w s = (Ok match e with ValidationError _ => 1 | _ => 2 end, s')) /\
  (forall code s', pipeline w s = (Ok code, s') -> code = 0 /\ run w s = (Ok 0, s')).
Proof.
  split; [|split].
  - destruct (setup_error w) as [e|] eqn:Hsetup.
    { exists 2, s. split; [now apply run_setup_fails with e|].
      right; right. split; [reflexivity|]. left. exists e.
      now rewrite setup_logging_by_error, Hsetup. }
    assert (Hlog : setup_logging w s = (Ok tt, s)).
    { now rewrite setup_logging_by_error, Hsetup. }
    destruct (spec_validate w) as [[]|e] eqn:Hval.
    + destruct (run_after_validation w s Hsetup Hval) as (sm & s1 & Hproc & Hrun).
      assert (Hvalid : validate_inputs w s = (Ok tt, s)).
      { now rewrite validate_inputs_refines, Hval. }
      destruct (write_error w) as [e|] eqn:Hwrite.
      * eexists 2, _. split; [exact Hrun|]. right; right.
        split; [reflexivity|]. right. repeat split; try assumption.
        exists sm, s1. eexists. split; [exact Hproc|].
        unfold write_summary, try_except, bind, cut_short_summary, raise, ret.
        rewrite Hwrite. destruct (write_opened w); reflexivity.
      * eexists 0, _. split; [exact Hrun|]. left.
        repeat split; try assumption.
        exists sm, s1. split; [exact Hproc|]. split; [|reflexivity].
        unfold write_summary, try_except, dump_summary. now rewrite Hwrite.
    + destruct (spec_validate_raises w e Hval) as [m ->].
      exists 1, s. split; [now apply run_validation_fails with m|].
      right; left. repeat split; try assumption.
      exists m. now rewrite validate_inputs_refines, Hval.
  - intros e s' Hpipe. unfold run, try_except. rewrite Hpipe.
    destruct e; reflexivity.
  - intros code s' Hpipe.
    assert (Hcode : code = 0).
    { revert Hpipe. unfold pipeline, bind, ret.
      destruct (setup_logging w s) as [[u0|e0] s0]; [|discriminate].
      destruct (validate_inputs w s0) as [[u1|e1] s1]; [|discriminate].
      destruct (process_files w s1) as [[sm|e2] s2]; [|discriminate].
      destruct (write_summary w sm s2) as [[u3|e3] s3]; [|discriminate].
      intros H. now injection H as <-. }
    subst code. split; [reflexivity|].
    unfold run, try_except. now rewrite Hpipe.
Qed.

Lemma run_exit_status_witness :
  run (world_of None) initial = (Ok 1, initial) /\
  run scenario initial = (Ok 0, snd (pipeline scenario initial)).
Proof.
  split.
  - destruct (run_exit_status (world_of None) initial) as (_ & Hraise & _).
    apply (Hraise (ValidationError "Input folder not found: /data/input")).
    reflexivity.
  - destruct (run_exit_status scenario initial) as (_ & _ & Hok).
    apply (Hok 0). vm_compute. reflexivity.
Defined.

(** ** Messages *)

Lemma string_app_assoc (a b c : string) :
  ((a ++ b) ++ c = a ++ b ++ c)%string.
Proof. induction a as [|x a IH]; simpl; [reflexivity | now rewrite IH]. Qed.

Lemma occurs_prefix (s b : string) : occurs s (s ++ b).
Proof. now exists EmptyString, b. Qed.

Lemma occurs_append_l (s t x : string) : occurs s t -> occurs s (x ++ t).
Proof.
  intros (a & b & ->). exists (x ++ a)%string, b.
  now rewrite string_app_assoc.
Qed.

Lemma occurs_append_r (s t y : string) : occurs s t -> occurs s (t ++ y).
Proof.
  intros (a & b & ->). exists a, (b ++ y)%string.
  now rewrite !string_app_assoc.
Qed.

Lemma occurs_refl (s : string) : occurs s s.
Proof.
  exists EmptyString, EmptyString. simpl.
  induction s as [|x s IH]; simpl; [reflexivity | now rewrite <- IH].
Qed.

(** Every part handed to [join] is found in the joined string. *)
Lemma occurs_join (sep part : string) (parts : list string) :
  In part parts -> occurs part (join sep parts).
Proof.
  unfold join. induction parts as [|p parts IH]; [easy|].
  intros [->|Hin]; simpl.
  - destruct parts; [apply occurs_refl | apply occurs_prefix].
  - destruct parts as [|q parts]; [easy|].
    now apply occurs_append_l, occurs_append_l, IH.
Qed.

Lemma contains_unfold (s t : string) :
  contains s t
  = String.prefix s t
    || match t with EmptyString => false | String _ t' => contains s t' end.
Proof. destruct t; reflexivity. Qed.

Lemma occurs_contains (s t : string) : occurs s t -> contains s t = true.
Proof.
  intros (a & b & ->). induction a as [|x a IH].
  - simpl. now rewrite contains_unfold, append_prefix_true.
  - rewrite contains_unfold. simpl. rewrite IH. apply orb_true_r.
Qed.

Lemma prefix_append (s t : string) :
  String.prefix s t = true -> exists b, t = (s ++ b)%string.
Proof.
  revert t. induction s as [|x s IH]; intros t H.
  - now exists t.
  - destruct t as [|y t]; simpl in H; [discriminate|].
    destruct (ascii_dec x y) as [->|]; [|discriminate].
    destruct (IH t H) as [b ->]. now exists b.
Qed.

Lemma contains_occurs (s t : string) : contains s t = true -> occurs s t.
Proof.
  induction t as [|y t IH]; rewrite contains_unfold; intros H;
    apply orb_true_iff in H; destruct H as [H|H].
  - destruct (prefix_append _ _ H) as [b ->]. apply occurs_prefix.
  - discriminate.
  - destruct (prefix_append _ _ H) as [b ->]. apply occurs_prefix.
  - apply (occurs_append_l s t (String y EmptyString)). now apply IH.
Qed.

Lemma error_parts_of_no_files (w : World) (items : list item) :
  exists extra,
    msg_no_files w items
    = join nl ([ "Input folder must contain at least 1 file(s).";
                 ("Found: " ++ str_nat (List.length (files_of items))
                            ++ " file(s)")%string ] ++ extra) /\
    (forall first rest,
        folders_of items = first :: rest ->
        In ("Found " ++ str_nat (List.length (folders_of items))
                     ++ " subfolder(s): "
                     ++ join ", " (folder_names (folders_of items)))%string extra /\
        In "Files inside subfolders are NOT processed." extra).
Proof.
  unfold msg_no_files.
  destruct (folders_of items) as [|first rest].
  - destruct (List.length items =? 0)%nat; eexists; (split; [reflexivity|]);
      intros ? ? Hnil; discriminate Hnil.
  - eexists. split; [reflexivity|].
    intros ? ? _. split; simpl; tauto.
Qed.

Lemma validate_no_files (w : World) (items : list item) (s : RunState) :
  input_node w = Some (Directory true items) ->
  files_of items = [] ->
  validate_inputs w s = (Raise (ValidationError (msg_no_files w items)), s).
Proof.
  intros Hnode Hfiles.
  unfold validate_inputs, iterdir, bind, raise, ret.
  rewrite Hnode. simpl. now rewrite Hfiles.
Qed.

Lemma folder_names_shape (folders : list item) :
  folder_names folders
  = firstn 5 (map name folders)
    ++ (if (5 <? List.length (map name folders))%nat
        then [("... and " ++ str_nat (List.length (map name folders) - 5)
                          ++ " more")%string]
        else []).
Proof.
  unfold folder_names. rewrite firstn_map, length_map.
  destruct (5 <? List.length folders)%nat; [reflexivity | now rewrite app_nil_r].
Qed.

Lemma files_of_put_dir (child : string) (items items' : list item) :
  put_dir child items = Some items' -> files_of items' = files_of items.
Proof.
  unfold put_dir. destruct (blocks_dir child items); [discriminate|].
  destruct (existsb (named child) items); intros H; injection H as <-.
  - reflexivity.
  - rewrite files_of_app. simpl. apply app_nil_r.
Qed.

(** Set-up adds no regular file to the input folder unless the output
    folder is the input folder. *)
Lemma set_up_adds_no_file (w : World) (r : bool) (items : list item) :
  setup_error w = None ->
  output_place w <> SameFolder ->
  input_before w = Some (Directory r items) ->
  exists items',
    input_node w = Some (Directory r items') /\
    files_of items' = files_of items.
Proof.
  unfold setup_error, input_node, set_up. intros Hsetup Hplace Hbefore.
  rewrite Hbefore in *.
  destruct (setup_fault w); [discriminate|].
  destruct (output_place w) as [| |child].
  - now exists items.
  - now elim Hplace.
  - destruct (put_dir child items) as [items'|] eqn:Hput; [|discriminate].
    exists items'. split; [reflexivity|]. now apply files_of_put_dir with child.
Qed.

(** C6, as the code has it.  The input is, when the run starts, a
    readable directory without a regular file directly in it (its
    subdirectories may hold anything); the output folder is not the
    input folder itself, and logging is set up without error.  Then
    validation raises a [ValidationError] whose message says
    "Found: 0 file(s)", and the run ends with status 1 in the state it
    started in: no file was processed, nothing was logged for a file,
    and [summary.json] was not written. *)
Theorem zero_files_abort (w : World) (items : list item) (s : RunState) :
  setup_error w = None ->
  output_place w <> SameFolder ->
  input_before w = Some (Directory true items) ->
  files_of items = [] ->
  exists m,
    validate_inputs w s = (Raise (ValidationError m), s) /\
    occurs "Found: 0 file(s)" m /\
    run w s = (Ok 1, s).
Proof.
  intros Hsetup Hplace Hbefore Hnone.
  destruct (set_up_adds_no_file w true items Hsetup Hplace Hbefore)
    as (items' & Hnode & Hsame).
  assert (Hfiles : files_of items' = []) by congruence.
  pose proof (validate_no_files w items' s Hnode Hfiles) as Hval.
  exists (msg_no_files w items'). split; [exact Hval|]. split.
  - destruct (error_parts_of_no_files w items') as (extra & -> & _).
    apply occurs_join. rewrite Hfiles. simpl. tauto.
  - apply run_validation_fails with (msg_no_files w items'); [assumption|].
    rewrite validate_inputs_refines in Hval. now injection Hval.
Qed.

Lemma zero_files_abort_witness :
  (exists m,
      validate_inputs six_subfolders initial = (Raise (ValidationError m), initial) /\
      occurs "Found: 0 file(s)" m /\
      run six_subfolders initial = (Ok 1, initial)) /\
  (exists m,
      validate_inputs output_below_input initial
      = (Raise (ValidationError m), initial) /\
      occurs "Found: 0 file(s)" m /\
      run output_below_input initial = (Ok 1, initial)).
Proof.
  split.
  - eapply (zero_files_abort six_subfolders);
      [reflexivity | discriminate | reflexivity | reflexivity].
  - eapply (zero_files_abort output_below_input);
      [reflexivity | discriminate | reflexivity | reflexivity].
Defined.

(** C6, as stated, fails twice over.  An empty directory that the
    process may not read is turned down by check 3, and its message
    says nothing about the number of files.  And an empty, readable
    directory that is also the output folder holds [processing.log] by
    the time it is validated: the run ends with status 0 and writes a
    summary of that one file. *)
Lemma zero_files_not_always_reported :
  (input_before unreadable_empty = Some (Directory false []) /\
   validate_inputs unreadable_empty initial
   = (Raise (ValidationError "Cannot read folder: /data/input"), initial) /\
   ~ occurs "0 file" "Cannot read folder: /data/input") /\
  (input_before output_in_input = Some (Directory true []) /\
   exists sm s',
     run output_in_input initial = (Ok 0, s') /\
     summary_json s' = Some sm /\
     map fr_name (files sm) = ["processing.log"]).
Proof.
  split.
  - split; [reflexivity|]. split; [reflexivity|].
    intros H. apply occurs_contains in H. discriminate H.
  - split; [reflexivity|].
    eexists. eexists. split; [vm_compute; reflexivity|].
    split; reflexivity.
Qed.

(** C9, as the code has it.  When check 4 fails the message is a list of
    parts joined by newlines.  One part is "Found: n file(s)" with n the
    number of regular files found.  When there are subfolders, one part
    lists the names of the first five of them, followed by
    "... and N more" when there are N more than five, and one part is
    "Files inside subfolders are NOT processed." *)
Theorem no_files_message (w : World) (items : list item) (s : RunState) :
  input_node w = Some (Directory true items) ->
  List.length (files_of items) < Config.MIN_FILES_REQUIRED ->
  exists parts,
    validate_inputs w s = (Raise (ValidationError (join nl parts)), s) /\
    In ("Found: " ++ str_nat (List.length (files_of items)) ++ " file(s)")%string
       parts /\
    (folders_of items <> [] ->
     let names := map name (folders_of items) in
     In ("Found " ++ str_nat (List.length names) ++ " subfolder(s): "
           ++ join ", "
                (firstn 5 names
                 ++ (if (5 <? List.length names)%nat
                     then [("... and " ++ str_nat (List.length names - 5)
                                       ++ " more")%string]
                     else [])))%string
        parts /\
     In "Files inside subfolders are NOT processed." parts).
Proof.
  intros Hnode Hlt.
  assert (Hfiles : files_of items = []).
  { destruct (files_of items); [reflexivity|].
    unfold Config.MIN_FILES_REQUIRED in Hlt. simpl in Hlt. lia. }
  destruct (error_parts_of_no_files w items) as (extra & Hmsg & Hextra).
  eexists. split; [|split].
  - rewrite (validate_no_files w items s Hnode Hfiles), Hmsg. reflexivity.
  - simpl. tauto.
  - intros Hfolders names.
    destruct (folders_of items) as [|first rest] eqn:Hf; [easy|].
    destruct (Hextra first rest eq_refl) as (Hline & Hnote).
    subst names. rewrite <- folder_names_shape, length_map.
    split; apply in_or_app; right; assumption.
Qed.

Lemma no_files_message_witness :
  exists parts,
    validate_inputs six_subfolders initial
    = (Raise (ValidationError (join nl parts)), initial) /\
    In "Found: 0 file(s)" parts /\
    In "Found 6 subfolder(s): s1, s2, s3, s4, s5, ... and 1 more" parts /\
    In "Files inside subfolders are NOT processed." parts.
Proof.
  destruct (no_files_message six_subfolders (listing six_subfolders) initial)
    as (parts & Hval & Hcount & Hsub).
  - reflexivity.
  - vm_compute. lia.
  - exists parts. split; [exact Hval|]. split; [exact Hcount|].
    apply Hsub. discriminate.
Defined.

(** C9, as stated, fails on the wording of the suffix: with six
    subfolders the message ends its list with "... and 1 more"; the text
    "+1 more" is nowhere in it. *)
Lemma six_subfolders_suffix :
  exists m,
    validate_inputs six_subfolders initial = (Raise (ValidationError m), initial) /\
    occurs "s1, s2, s3, s4, s5, ... and 1 more" m /\
    ~ occurs "+1 more" m.
Proof.
  eexists. split; [reflexivity|]. split.
  - apply contains_occurs. vm_compute. reflexivity.
  - intros H. apply occurs_contains in H. vm_compute in H. discriminate H.
Qed.

(** ** Set-up and the input folder *)

Lemma existsb_permutation {A : Type} (p : A -> bool) (l l' : list A) :
  Permutation l l' -> existsb p l = existsb p l'.
Proof.
  induction 1 as [|x l l' _ IH|x y l|l l' l'' _ IH1 _ IH2]; simpl.
  - reflexivity.
  - now rewrite IH.
  - destruct (p x), (p y); reflexivity.
  - congruence.
Qed.

Lemma named_absent (nm : string) (items : list item) :
  existsb (named nm) items = false -> ~ In nm (map fst items).
Proof.
  intros Hno Hin. apply in_map_iff in Hin. destruct Hin as (it & Hfst & Hin).
  assert (Hyes : existsb (named nm) items = true).
  { apply existsb_exists. exists it. split; [assumption|].
    unfold named. rewrite Hfst. apply String.eqb_refl. }
  congruence.
Qed.

Lemma names_snoc (items : list item) (it : item) :
  NoDup (map fst items) ->
  ~ In (fst it) (map fst items) ->
  NoDup (map fst (items ++ [it])).
Proof.
  intros Hnd Hnotin. rewrite map_app. simpl.
  apply (Permutation_NoDup (Permutation_cons_append _ _)).
  now constructor.
Qed.

Lemma put_log_permutation (lf : FileData) (items items' : list item) :
  NoDup (map fst items) ->
  Permutation items items' ->
  match put_log lf items, put_log lf items' with
  | Some j, Some j' => Permutation j j' /\ NoDup (map fst j)
  | None, None => True
  | _, _ => False
  end.
Proof.
  intros Hnd Hperm. unfold put_log, blocks_file.
  rewrite <- (existsb_permutation _ _ _ Hperm).
  destruct (existsb _ items); [exact I|].
  rewrite <- (existsb_permutation (named Config.LOG_FILE) _ _ Hperm).
  destruct (existsb (named Config.LOG_FILE) items) eqn:Hnamed.
  - split; [now apply Permutation_map|].
    rewrite map_map.
    erewrite map_ext; [exact Hnd|].
    intros it. simpl. now destruct (named Config.LOG_FILE it).
  - split; [now apply Permutation_app_tail|].
    apply names_snoc; [assumption|]. now apply named_absent.
Qed.

Lemma put_dir_permutation (child : string) (items items' : list item) :
  NoDup (map fst items) ->
  Permutation items items' ->
  match put_dir child items, put_dir child items' with
  | Some j, Some j' => Permutation j j' /\ NoDup (map fst j)
  | None, None => True
  | _, _ => False
  end.
Proof.
  intros Hnd Hperm. unfold put_dir, blocks_dir.
  rewrite <- (existsb_permutation _ _ _ Hperm).
  destruct (existsb _ items); [exact I|].
  rewrite <- (existsb_permutation (named child) _ _ Hperm).
  destruct (existsb (named child) items) eqn:Hnamed.
  - now split.
  - split; [now apply Permutation_app_tail|].
    apply names_snoc; [assumption|]. now apply named_absent.
Qed.

(** Listing the folder in another order before the run gives a listing
    in another order after set-up, and set-up raises for both or for
    none. *)
Lemma with_items_permuted (w : World) (r : bool) (items items' : list item) :
  NoDup (map fst items) ->
  Permutation items items' ->
  setup_error (with_items w r items) = setup_error (with_items w r items') /\
  exists j j',
    input_node (with_items w r items) = Some (Directory r j) /\
    input_node (with_items w r items') = Some (Directory r j') /\
    Permutation j j' /\ NoDup (map fst j).
Proof.
  intros Hnd Hperm. unfold setup_error, input_node, set_up. simpl.
  destruct (setup_fault w) as [e|].
  { split; [reflexivity|]. now exists items, items'. }
  destruct (output_place w) as [| |child].
  - split; [reflexivity|]. now exists items, items'.
  - pose proof (put_log_permutation (log_file w) items items' Hnd Hperm) as H.
    destruct (put_log (log_file w) items) as [j|],
             (put_log (log_file w) items') as [j'|]; try contradiction.
    + split; [reflexivity|]. now exists j, j'.
    + split; [reflexivity|]. now exists items, items'.
  - pose proof (put_dir_permutation child items items' Hnd Hperm) as H.
    destruct (put_dir child items) as [j|],
             (put_dir child items') as [j'|]; try contradiction.
    + split; [reflexivity|]. now exists j, j'.
    + split; [reflexivity|]. now exists items, items'.
Qed.

(** [process_files] looks at the world through the sorted list of the
    regular files and through the three texts of the run's metadata. *)
Lemma process_by_listing (w1 w2 : World) (r : bool) (j j' : list item)
      (s : RunState) :
  input_folder w1 = input_folder w2 ->
  output_folder w1 = output_folder w2 ->
  now w1 = now w2 ->
  input_node w1 = Some (Directory r j) ->
  input_node w2 = Some (Directory r j') ->
  PathSort.sort (files_of j) = PathSort.sort (files_of j') ->
  process_files w1 s = process_files w2 s.
Proof.
  intros Hin Hout Hnow H1 H2 Hsort.
  unfold process_files, iterdir, bind, ret. rewrite H1, H2.
  destruct r; [|reflexivity].
  now rewrite Hsort, Hin, Hout, Hnow.
Qed.

(** ** Order of the files *)

Lemma records_sorted (l : list (string * FileData)) :
  StronglySorted (fun a b => is_true (PathOrder.leb a b)) l ->
  StronglySorted name_le (map record_of l).
Proof.
  induction 1 as [|a l _ IH Ha]; simpl; constructor; [assumption|].
  rewrite Forall_forall in *. intros r Hr.
  apply in_map_iff in Hr. destruct Hr as (b & <- & Hb).
  exact (Ha b Hb).
Qed.

Lemma nth_error_enumerate {A : Type} (l : list A) :
  forall k i x,
    nth_error l i = Some x ->
    nth_error (combine (seq k (List.length l)) l) i = Some (k + i, x).
Proof.
  induction l as [|y l IH]; intros k [|i] x H; simpl in *; try discriminate.
  - injection H as ->. now rewrite Nat.add_0_r.
  - rewrite (IH (S k) i x H). f_equal. f_equal. lia.
Qed.

(** C5. The records of the summary are in ascending order of name: each
    one is below or equal to every later one.  They are the records of
    the regular files of the folder, each once.  One progress line is
    logged per record, in the same order, and the line of the record at
    position [i] (from 0) carries the index [i + 1].  Listing the folder
    in another order changes nothing of what [process_files] returns
    and logs. *)
Theorem files_sorted_by_name :
  (forall w items s,
      input_node w = Some (Directory true items) ->
      exists sm lines,
        process_files w s
        = (Ok sm, {| log := log s ++ lines; summary_json := summary_json s |}) /\
        StronglySorted name_le (files sm) /\
        Permutation (files sm) (map record_of (files_of items)) /\
        List.length lines = List.length (files sm) /\
        (forall i r,
            nth_error (files sm) i = Some r ->
            nth_error lines i
            = Some (progress_line (S i) (List.length (files sm)) (fr_name r)))) /\
  (forall w r items items' s,
      NoDup (map fst items) ->
      Permutation items items' ->
      process_files (with_items w r items) s
      = process_files (with_items w r items') s).
Proof.
  split.
  - intros w items s Hnode.
    destruct (process_files_spec w items s Hnode) as (acc & _ & Hstats & Hrun).
    eexists. exists (progress_lines (file_stats acc)).
    split; [exact Hrun|]. simpl. rewrite Hstats. repeat split.
    + apply records_sorted, PathSort.StronglySorted_sort, PathOrder_transitive.
    + apply Permutation_map, Permutation_sym, PathSort.Permuted_sort.
    + unfold progress_lines, enumerate.
      rewrite length_map, length_combine, length_seq. apply Nat.min_id.
    + intros i r Hnth. unfold progress_lines, enumerate.
      rewrite nth_error_map, (nth_error_enumerate _ 1 i r Hnth). reflexivity.
  - intros w r items items' s Hnd Hperm.
    destruct (with_items_permuted w r items items' Hnd Hperm)
      as (_ & j & j' & Hj & Hj' & Hperm' & Hnd').
    apply (process_by_listing _ _ r j j'); try reflexivity; try assumption.
    apply sort_order_independent.
    + now apply files_of_names.
    + now apply files_of_permutation.
Qed.

Lemma files_sorted_by_name_witness :
  (exists sm lines,
      process_files scenario initial
      = (Ok sm, {| log := log initial ++ lines;
                   summary_json := summary_json initial |}) /\
      StronglySorted name_le (files sm) /\
      Permutation (files sm) (map record_of (files_of (listing scenario))) /\
      List.length lines = List.length (files sm) /\
      (forall i r,
          nth_error (files sm) i = Some r ->
          nth_error lines i
          = Some (progress_line (S i) (List.length (files sm)) (fr_name r)))) /\
  process_files (with_items scenario true [("b.bin", b_bin); ("a.txt", a_txt)]) initial
  = process_files (with_items scenario true [("a.txt", a_txt); ("b.bin", b_bin)]) initial.
Proof.
  destruct files_sorted_by_name as (Hsorted & Horder).
  split.
  - apply (Hsorted scenario (listing scenario) initial). reflexivity.
  - apply Horder.
    + repeat constructor; simpl; intuition discriminate.
    + apply perm_swap.
Defined.

(** ** What lies inside subfolders *)

Lemma same_children_files (items items' : list item) :
  same_direct_children items items' -> files_of items = files_of items'.
Proof.
  induction 1 as [|x y l l' Hxy _ IH]; [reflexivity|].
  change (x :: l) with ([x] ++ l). change (y :: l') with ([y] ++ l').
  rewrite !files_of_app, IH. f_equal.
  destruct Hxy; reflexivity.
Qed.

Lemma same_children_folders (items items' : list item) :
  same_direct_children items items' ->
  map name (folders_of items) = map name (folders_of items').
Proof.
  induction 1 as [|x y l l' Hxy _ IH]; [reflexivity|].
  destruct Hxy as [[nm n]|nm r c c']; simpl.
  - destruct (is_dir n); simpl; now rewrite IH.
  - now rewrite IH.
Qed.

Lemma same_children_message (w1 w2 : World) (items items' : list item) :
  input_folder w1 = input_folder w2 ->
  same_direct_children items items' ->
  msg_no_files w1 items = msg_no_files w2 items'.
Proof.
  intros Hfolder Hsame. unfold msg_no_files.
  rewrite (same_children_files _ _ Hsame), (Forall2_length Hsame), Hfolder.
  pose proof (same_children_folders _ _ Hsame) as Hnames.
  pose proof (folder_names_shape (folders_of items)) as Hshape.
  pose proof (folder_names_shape (folders_of items')) as Hshape'.
  rewrite Hnames in Hshape. rewrite <- Hshape' in Hshape.
  pose proof (f_equal (@List.length string) Hnames) as Hlen.
  rewrite !length_map in Hlen.
  destruct (folders_of items) as [|f1 fs], (folders_of items') as [|f1' fs'];
    try discriminate Hnames.
  - reflexivity.
  - injection Hnames as Hfirst _. simpl in Hlen.
    rewrite Hshape, Hfirst. simpl List.length. now rewrite Hlen.
Qed.

(** [validate_inputs] looks at the world through the listing of the
    input folder, and at that only as far as [same_direct_children]
    keeps it. *)
Lemma validate_by_listing (w1 w2 : World) (r : bool) (j j' : list item)
      (s : RunState) :
  input_folder w1 = input_folder w2 ->
  input_node w1 = Some (Directory r j) ->
  input_node w2 = Some (Directory r j') ->
  same_direct_children j j' ->
  validate_inputs w1 s = validate_inputs w2 s.
Proof.
  intros Hfolder H1 H2 Hsame.
  unfold validate_inputs, iterdir, bind, raise, ret,
    msg_cannot_read_folder. rewrite H1, H2, Hfolder. simpl.
  destruct r; [|reflexivity]. simpl.
  now rewrite (same_children_message w1 w2 j j' Hfolder Hsame),
    (same_children_files _ _ Hsame).
Qed.

Lemma same_entry_kind (x y : item) :
  same_entry x y ->
  fst x = fst y /\ is_file (snd x) = is_file (snd y)
  /\ is_dir (snd x) = is_dir (snd y).
Proof. destruct 1; simpl; auto. Qed.

Lemma same_children_existsb (p : string -> bool -> bool -> bool)
      (items items' : list item) :
  same_direct_children items items' ->
  @existsb item
     (fun it : item => p (fst it) (is_file (snd it)) (is_dir (snd it))) items
  = @existsb item
      (fun it : item => p (fst it) (is_file (snd it)) (is_dir (snd it))) items'.
Proof.
  induction 1 as [|x y l l' Hxy _ IH]; [reflexivity|]. simpl.
  destruct (same_entry_kind x y Hxy) as (-> & -> & ->). now rewrite IH.
Qed.

Lemma same_children_put_log (lf : FileData) (items items' : list item) :
  same_direct_children items items' ->
  match put_log lf items, put_log lf items' with
  | Some j, Some j' => same_direct_children j j'
  | None, None => True
  | _, _ => False
  end.
Proof.
  intros Hsame. unfold put_log, blocks_file, named.
  pose proof (same_children_existsb
                (fun nm f _ => String.eqb nm Config.LOG_FILE && negb f)
                items items' Hsame) as Hblocked.
  pose proof (same_children_existsb
                (fun nm _ _ => String.eqb nm Config.LOG_FILE)
                items items' Hsame) as Hnamed.
  cbv beta in Hblocked, Hnamed. rewrite Hblocked, Hnamed.
  destruct (existsb _ items'); [exact I|].
  destruct (existsb _ items').
  - clear Hblocked Hnamed. unfold same_direct_children in *.
    induction Hsame as [|x y l l' Hxy _ IH]; simpl; constructor.
    + destruct (same_entry_kind x y Hxy) as (Hfst & _ & _).
      rewrite Hfst. destruct (String.eqb (fst y) Config.LOG_FILE).
      * apply same_node.
      * exact Hxy.
    + exact IH.
  - apply Forall2_app; [assumption|]. repeat constructor.
Qed.

Lemma same_children_put_dir (child : string) (items items' : list item) :
  same_direct_children items items' ->
  match put_dir child items, put_dir child items' with
  | Some j, Some j' => same_direct_children j j'
  | None, None => True
  | _, _ => False
  end.
Proof.
  intros Hsame. unfold put_dir, blocks_dir, named.
  pose proof (same_children_existsb
                (fun nm _ d => String.eqb nm child && negb d)
                items items' Hsame) as Hblocked.
  pose proof (same_children_existsb
                (fun nm _ _ => String.eqb nm child)
                items items' Hsame) as Hnamed.
  cbv beta in Hblocked, Hnamed. rewrite Hblocked, Hnamed.
  destruct (existsb _ items'); [exact I|].
  destruct (existsb _ items'); [assumption|].
  apply Forall2_app; [assumption|]. repeat constructor.
Qed.

(** Two folders with the same direct children before the run have the
    same direct children after set-up, and set-up raises for both or
    for none. *)
Lemma with_items_same_children
      (w : World) (r : bool) (items items' : list item) :
  same_direct_children items items' ->
  setup_error (with_items w r items) = setup_error (with_items w r items') /\
  exists j j',
    input_node (with_items w r items) = Some (Directory r j) /\
    input_node (with_items w r items') = Some (Directory r j') /\
    same_direct_children j j'.
Proof.
  intros Hsame. unfold setup_error, input_node, set_up. simpl.
  destruct (setup_fault w) as [e|].
  { split; [reflexivity|]. now exists items, items'. }
  destruct (output_place w) as [| |child].
  - split; [reflexivity|]. now exists items, items'.
  - pose proof (same_children_put_log (log_file w) items items' Hsame) as H.
    destruct (put_log (log_file w) items) as [j|],
             (put_log (log_file w) items') as [j'|]; try contradiction.
    + split; [reflexivity|]. now exists j, j'.
    + split; [reflexivity|]. now exists items, items'.
  - pose proof (same_children_put_dir child items items' Hsame) as H.
    destruct (put_dir child items) as [j|],
             (put_dir child items') as [j'|]; try contradiction.
    + split; [reflexivity|]. now exists j, j'.
    + split; [reflexivity|]. now exists items, items'.
Qed.

(** C7. Two input directories with the same direct children, among them
    at least one regular file and at least one subdirectory, which
    differ only in what their subdirectories hold: validation gives the
    same outcome for both, [process_files] returns the same summary
    (hence the same totals) and writes the same log, and the two runs
    end alike. *)
Theorem subfolder_contents_ignored
        (w : World) (r : bool) (items items' : list item) (s : RunState) :
  same_direct_children items items' ->
  1 <= List.length (files_of items) ->
  1 <= List.length (folders_of items) ->
  validate_inputs (with_items w r items) s
  = validate_inputs (with_items w r items') s /\
  process_files (with_items w r items) s
  = process_files (with_items w r items') s /\
  run (with_items w r items) s = run (with_items w r items') s.
Proof.
  intros Hsame _ _.
  destruct (with_items_same_children w r items items' Hsame)
    as (Hsetup & j & j' & Hj & Hj' & Hsame').
  assert (Hval : forall t, validate_inputs (with_items w r items) t
                           = validate_inputs (with_items w r items') t).
  { intros t. now apply (validate_by_listing _ _ r j j'). }
  assert (Hproc : forall t, process_files (with_items w r items) t
                            = process_files (with_items w r items') t).
  { intros t. apply (process_by_listing _ _ r j j'); try reflexivity;
      try assumption.
    now rewrite (same_children_files _ _ Hsame'). }
  split; [apply Hval|]. split; [apply Hproc|].
  unfold run, pipeline, try_except, bind.
  rewrite !setup_logging_by_error, <- Hsetup.
  destruct (setup_error (with_items w r items)); [reflexivity|]. unfold ret.
  rewrite <- Hval.
  destruct (validate_inputs (with_items w r items) s) as [[[]|e] s1];
    [|reflexivity].
  rewrite <- Hproc.
  destruct (process_files (with_items w r items) s1) as [[sm|e] s2];
    reflexivity.
Qed.

Lemma subfolder_contents_ignored_witness :
  validate_inputs
    (with_items scenario true [("a.txt", a_txt); ("sub", Directory true [])])
    initial
  = validate_inputs
      (with_items scenario true
         [("a.txt", a_txt);
          ("sub", Directory true [("nested.txt", a_txt); ("deep", Directory false [])])])
      initial /\
  process_files
    (with_items scenario true [("a.txt", a_txt); ("sub", Directory true [])])
    initial
  = process_files
      (with_items scenario true
         [("a.txt", a_txt);
          ("sub", Directory true [("nested.txt", a_txt); ("deep", Directory false [])])])
      initial /\
  run (with_items scenario true [("a.txt", a_txt); ("sub", Directory true [])])
      initial
  = run (with_items scenario true
           [("a.txt", a_txt);
            ("sub", Directory true [("nested.txt", a_txt); ("deep", Directory false [])])])
        initial.
Proof.
  apply subfolder_contents_ignored.
  - repeat constructor.
  - simpl. lia.
  - simpl. lia.
Defined.

(* ================================================================== *)
(** * Further properties *)

(** ** Lines *)

Lemma lines_from_other (cur rest : list Codec.codepoint) (c : Codec.codepoint) :
  c <> Codec.LF -> c <> Codec.CR ->
  Codec.lines_from cur (c :: rest) = Codec.lines_from (c :: cur) rest.
Proof.
  intros Hlf Hcr. simpl.
  apply N.eqb_neq in Hlf. apply N.eqb_neq in Hcr.
  now rewrite Hlf, Hcr.
Qed.

Lemma lines_from_others (xs : list Codec.codepoint) :
  forall cur rest,
    Forall (fun x => x <> Codec.LF /\ x <> Codec.CR) xs ->
    Codec.lines_from cur (xs ++ rest) = Codec.lines_from (rev xs ++ cur) rest.
Proof.
  induction xs as [|x xs IH]; intros cur rest Hall; [reflexivity|].
  inversion Hall as [|? ? [Hlf Hcr] Hall']; subst.
  simpl app. rewrite lines_from_other by assumption.
  rewrite IH by assumption. now rewrite <- app_assoc.
Qed.

(** Only whether a line has been begun matters for the number of lines
    still to come. *)
Lemma lines_from_pending (cs : list Codec.codepoint) :
  forall cur cur',
    (cur = [] <-> cur' = []) ->
    List.length (Codec.lines_from cur cs) = List.length (Codec.lines_from cur' cs).
Proof.
  induction cs as [|c rest IH]; intros cur cur' Hiff.
  - destruct cur, cur'; simpl; try reflexivity.
    + destruct Hiff as [H _]. discriminate (H eq_refl).
    + destruct Hiff as [_ H]. discriminate (H eq_refl).
  - simpl. destruct (c =? Codec.LF)%N; [reflexivity|].
    destruct (c =? Codec.CR)%N.
    + destruct rest as [|c' rest']; [reflexivity|].
      destruct (c' =? Codec.LF)%N; reflexivity.
    + apply IH. split; discriminate.
Qed.

(** After a CR, a directly following LF belongs to the same line end. *)
Lemma lines_from_cr (cur rest : list Codec.codepoint) :
  List.length (Codec.lines_from cur (Codec.CR :: rest))
  = List.length (Codec.lines_from [] rest)
    + (if (hd 0%N rest =? Codec.LF)%N then 0 else 1).
Proof.
  destruct rest as [|c' rest']; [reflexivity|].
  cbn [Codec.lines_from hd].
  change (Codec.CR =? Codec.LF)%N with false.
  change (Codec.CR =? Codec.CR)%N with true. cbv iota.
  destruct (c' =? Codec.LF)%N; simpl; lia.
Qed.

(** ** UTF-8 and the line ends *)

Ltac bool_to_prop :=
  repeat match goal with
         | H : (_ && _)%bool = true |- _ => apply andb_true_iff in H; destruct H
         | H : Codec.in_range _ _ _ = true |- _ =>
           unfold Codec.in_range in H
         | H : Codec.is_cont _ = true |- _ =>
           unfold Codec.is_cont, Codec.in_range in H
         | H : (_ <=? _)%N = true |- _ => apply N.leb_le in H
         | H : (_ <? _)%N = true |- _ => apply N.ltb_lt in H
         | H : (_ <? _)%N = false |- _ => apply N.ltb_ge in H
         | H : (_ =? _)%N = true |- _ => apply N.eqb_eq in H
         | H : (_ =? _)%N = false |- _ => apply N.eqb_neq in H
         end.

(** One step of the UTF-8 decoder: it takes a sequence of one to four
    bytes off the front and makes one code point of it.  A sequence of
    one byte is an ASCII byte and stands for itself; in a longer one
    every byte, and the code point, is 128 or more. *)
Lemma decode_utf8_step (b0 : byte) (r0 : list byte) (cs : list Codec.codepoint) :
  Codec.decode_utf8 (b0 :: r0) = Some cs ->
  exists more rest c cs',
    r0 = more ++ rest /\
    cs = c :: cs' /\
    Codec.decode_utf8 rest = Some cs' /\
    ((more = [] /\ c = Codec.byte_val b0 /\ (c < 128)%N) \/
     (more <> [] /\ (128 <= c)%N /\
      Forall (fun b => (128 <= Codec.byte_val b)%N) (b0 :: more))).
Proof.
  cbn [Codec.decode_utf8]. cbv zeta.
  destruct (Codec.byte_val b0 <? 128)%N eqn:H1.
  { destruct (Codec.decode_utf8 r0) as [cs0|] eqn:Hd; [|discriminate].
    simpl. intros H. injection H as <-.
    exists [], r0, (Codec.byte_val b0), cs0. bool_to_prop.
    repeat split; auto. }
  destruct (Codec.in_range 194 223 (Codec.byte_val b0)) eqn:H2.
  { destruct r0 as [|b1 r1]; [discriminate|].
    destruct (Codec.is_cont b1) eqn:Hc1; [|discriminate].
    destruct (Codec.decode_utf8 r1) as [cs1|] eqn:Hd; [|discriminate].
    simpl. intros H. injection H as <-.
    exists [b1], r1. eexists. exists cs1. bool_to_prop.
    repeat split; auto. right. unfold Codec.cont_bits.
    split; [discriminate|]. split; [lia|].
    repeat constructor; lia. }
  destruct (Codec.in_range 224 239 (Codec.byte_val b0)) eqn:H3.
  { destruct r0 as [|b1 [|b2 r2]]; try discriminate.
    destruct (Codec.in_range _ _ (Codec.byte_val b1) && Codec.is_cont b2)%bool
      eqn:Hc; [|discriminate].
    destruct (Codec.decode_utf8 r2) as [cs2|] eqn:Hd; [|discriminate].
    simpl. intros H. injection H as <-.
    exists [b1; b2], r2. eexists. exists cs2.
    repeat split; auto. right. unfold Codec.cont_bits.
    split; [discriminate|].
    destruct (Codec.byte_val b0 =? 224)%N eqn:He1;
      destruct (Codec.byte_val b0 =? 237)%N eqn:He2;
      bool_to_prop; (split; [lia|]); repeat constructor; lia. }
  destruct (Codec.in_range 240 244 (Codec.byte_val b0)) eqn:H4; [|discriminate].
  destruct r0 as [|b1 [|b2 [|b3 r3]]]; try discriminate.
  destruct (Codec.in_range _ _ (Codec.byte_val b1) && Codec.is_cont b2
            && Codec.is_cont b3)%bool eqn:Hc; [|discriminate].
  destruct (Codec.decode_utf8 r3) as [cs3|] eqn:Hd; [|discriminate].
  simpl. intros H. injection H as <-.
  exists [b1; b2; b3], r3. eexists. exists cs3.
  repeat split; auto. right. unfold Codec.cont_bits.
  split; [discriminate|].
  destruct (Codec.byte_val b0 =? 240)%N eqn:He1;
    destruct (Codec.byte_val b0 =? 244)%N eqn:He2;
    bool_to_prop; (split; [lia|]); repeat constructor; lia.
Qed.

Lemma high_is_no_line_end (c : Codec.codepoint) :
  (128 <= c)%N -> c <> Codec.LF /\ c <> Codec.CR.
Proof. unfold Codec.LF, Codec.CR. lia. Qed.

Lemma utf8_head_lf (bs : list byte) (cs : list Codec.codepoint) :
  Codec.decode_utf8 bs = Some cs ->
  (hd 0%N cs =? Codec.LF)%N = (hd 0%N (map Codec.byte_val bs) =? Codec.LF)%N.
Proof.
  destruct bs as [|b0 r0]; intros Hdec.
  - simpl in Hdec. now injection Hdec as <-.
  - destruct (decode_utf8_step b0 r0 cs Hdec)
      as (more & rest & c & cs' & _ & -> & _ & [(_ & -> & _)|(_ & Hc & Hall)]).
    + reflexivity.
    + inversion Hall as [|? ? Hb0 _]; subst. simpl.
      destruct (high_is_no_line_end c Hc) as [Hlf _].
      destruct (high_is_no_line_end _ Hb0) as [Hlf' _].
      apply N.eqb_neq in Hlf, Hlf'. now rewrite Hlf, Hlf'.
Qed.

(** Reading the bytes as UTF-8 or one byte per character gives the same
    number of lines. *)
Lemma utf8_same_lines (n : nat) :
  forall bs cs cur cur',
    List.length bs <= n ->
    (cur = [] <-> cur' = []) ->
    Codec.decode_utf8 bs = Some cs ->
    List.length (Codec.lines_from cur cs)
    = List.length (Codec.lines_from cur' (map Codec.byte_val bs)).
Proof.
  induction n as [|n IH]; intros bs cs cur cur' Hlen Hiff Hdec.
  - destruct bs; [|simpl in Hlen; lia].
    simpl in Hdec. injection Hdec as <-. now apply lines_from_pending.
  - destruct bs as [|b0 r0].
    { simpl in Hdec. injection Hdec as <-. now apply lines_from_pending. }
    destruct (decode_utf8_step b0 r0 cs Hdec)
      as (more & rest & c & cs' & -> & -> & Hrest
          & [(-> & Hc & Hlow)|(Hmore & Hc & Hall)]).
    + simpl app in *. cbn [map]. rewrite <- Hc. clear Hc.
      simpl in Hlen.
      destruct (N.eq_dec c Codec.LF) as [->|Hlf].
      { simpl. f_equal. apply IH; [lia|tauto|assumption]. }
      destruct (N.eq_dec c Codec.CR) as [->|Hcr].
      { rewrite !lines_from_cr, (utf8_head_lf rest cs' Hrest).
        f_equal. apply IH; [lia|tauto|assumption]. }
      rewrite !lines_from_other by assumption.
      apply IH; [lia| |assumption]. split; discriminate.
    + destruct (high_is_no_line_end c Hc) as [Hlf Hcr].
      rewrite lines_from_other by assumption.
      change (b0 :: more ++ rest) with ((b0 :: more) ++ rest).
      rewrite map_app, lines_from_others.
      * apply IH; [| |assumption].
        -- simpl in Hlen. rewrite length_app in Hlen. lia.
        -- split; [discriminate|].
           intros H. apply app_eq_nil in H. destruct H as [H _].
           simpl in H. apply app_eq_nil in H. destruct H as [_ H]. discriminate.
      * apply Forall_map. eapply Forall_impl; [|exact Hall].
        intros b Hb. now apply high_is_no_line_end.
Qed.

(** What [count_lines] answers for a file that can be read, by the two
    encodings that can come into play. *)
Lemma count_lines_readable (f : FileData) (bs : list byte) :
  content f = Some bs ->
  count_lines f
  = Some (List.length
            (Codec.readlines
               (match Codec.decode_utf8 bs with
                | Some cs => cs
                | None => map Codec.byte_val bs
                end))).
Proof.
  intros Hc. unfold count_lines, encodings. simpl.
  unfold open_and_count. rewrite Hc. simpl.
  destruct (Codec.decode_utf8 bs); reflexivity.
Qed.

(** A file that can be read has the number of lines of its bytes read
    one byte per character. *)
Lemma count_lines_bytes (f : FileData) (bs : list byte) :
  content f = Some bs ->
  count_lines f
  = Some (List.length (Codec.readlines (map Codec.byte_val bs))).
Proof.
  intros Hc. rewrite (count_lines_readable f bs Hc). f_equal.
  destruct (Codec.decode_utf8 bs) as [cs|] eqn:Hdec; [|reflexivity].
  unfold Codec.readlines.
  apply (utf8_same_lines (List.length bs)); [lia|tauto|assumption].
Qed.

(** Two texts that agree character by character, up to characters from
    128 on, have the same number of lines. *)
Lemma same_line_ends (cs ds : list Codec.codepoint) :
  Forall2 (fun c d => c = d \/ ((128 <= c)%N /\ (128 <= d)%N)) cs ds ->
  forall cur cur',
    (cur = [] <-> cur' = []) ->
    List.length (Codec.lines_from cur cs) = List.length (Codec.lines_from cur' ds).
Proof.
  induction 1 as [|c d cs ds Hcd Hrest IH]; intros cur cur' Hiff.
  - now apply lines_from_pending.
  - destruct Hcd as [<-|[Hc Hd]].
    + destruct (N.eq_dec c Codec.LF) as [->|Hlf].
      { simpl. f_equal. apply IH. tauto. }
      destruct (N.eq_dec c Codec.CR) as [->|Hcr].
      { rewrite !lines_from_cr. f_equal; [apply IH; tauto|].
        destruct Hrest as [|c' d' cs' ds' [<-|[Hc' Hd']] _]; try reflexivity.
        simpl.
        destruct (high_is_no_line_end c' Hc') as [H1 _].
        destruct (high_is_no_line_end d' Hd') as [H2 _].
        apply N.eqb_neq in H1, H2. now rewrite H1, H2. }
      rewrite !lines_from_other by assumption.
      apply IH. split; discriminate.
    + destruct (high_is_no_line_end c Hc), (high_is_no_line_end d Hd).
      rewrite !lines_from_other by assumption.
      apply IH. split; discriminate.
Qed.

Lemma cp1252_char_class (b : byte) (c : Codec.codepoint) :
  Codec.cp1252_char b = Some c ->
  c = Codec.byte_val b \/ ((128 <= c)%N /\ (128 <= Codec.byte_val b)%N).
Proof.
  unfold Codec.cp1252_char.
  destruct (Codec.in_range 128 159 (Codec.byte_val b)) eqn:Hr.
  - intros Hnth. right. bool_to_prop. split; [|assumption].
    assert (Hall : Forall (fun o => match o with
                                    | Some x => (128 <= x)%N
                                    | None => True
                                    end) Codec.cp1252_high).
    { unfold Codec.cp1252_high. repeat constructor; lia. }
    rewrite Forall_forall in Hall.
    apply (Hall (Some c)). rewrite <- Hnth. apply nth_In.
    unfold Codec.cp1252_high. simpl List.length. lia.
  - intros H. injection H as <-. now left.
Qed.

Lemma cp1252_same_line_ends (bs : list byte) :
  forall cs,
    Codec.decode_cp1252 bs = Some cs ->
    Forall2 (fun c d => c = d \/ ((128 <= c)%N /\ (128 <= d)%N))
            cs (map Codec.byte_val bs).
Proof.
  induction bs as [|b bs IH]; intros cs Hdec; simpl in Hdec.
  - injection Hdec as <-. constructor.
  - destruct (Codec.cp1252_char b) as [c|] eqn:Hchar; [|discriminate].
    destruct (Codec.decode_cp1252 bs) as [cs'|]; [|discriminate].
    simpl in Hdec. injection Hdec as <-. simpl. constructor.
    + now apply cp1252_char_class.
    + now apply IH.
Qed.

(** X1. The number of lines of a readable file does not depend on the
    encoding that decoded it: under each of the three encodings of the
    list that can decode its bytes, the decoded text has the number of
    lines that [count_lines] returns. *)
Theorem count_lines_encoding_independent
        (f : FileData) (bs : list byte) (enc : Codec.encoding)
        (cs : list Codec.codepoint) :
  content f = Some bs ->
  Codec.decode enc bs = Some cs ->
  count_lines f = Some (List.length (Codec.readlines cs)).
Proof.
  intros Hc Hdec. rewrite (count_lines_bytes f bs Hc). f_equal.
  unfold Codec.readlines. symmetry. destruct enc; simpl in Hdec.
  - apply (utf8_same_lines (List.length bs)); [lia|tauto|assumption].
  - unfold Codec.decode_latin1 in Hdec. now injection Hdec as <-.
  - apply same_line_ends; [|tauto]. now apply cp1252_same_line_ends.
Qed.

Lemma count_lines_encoding_independent_witness :
  count_lines (file_data 7 (Some [xe2; x82; xac; x0d; x0a; xc3; xa9]))
  = Some (List.length (Codec.readlines [8364; 13; 10; 233]%N)) /\
  count_lines (file_data 7 (Some [xe2; x82; xac; x0d; x0a; xc3; xa9]))
  = Some (List.length
            (Codec.readlines [226; 8218; 172; 13; 10; 195; 169]%N)).
Proof.
  split.
  - apply (count_lines_encoding_independent
             (file_data 7 (Some [xe2; x82; xac; x0d; x0a; xc3; xa9]))
             [xe2; x82; xac; x0d; x0a; xc3; xa9] Codec.UTF_8).
    + reflexivity.
    + reflexivity.
  - apply (count_lines_encoding_independent
             (file_data 7 (Some [xe2; x82; xac; x0d; x0a; xc3; xa9]))
             [xe2; x82; xac; x0d; x0a; xc3; xa9] Codec.CP1252).
    + reflexivity.
    + reflexivity.
Defined.

(** ** Counting line ends *)

Lemma count_cp_cons (x c : Codec.codepoint) (rest : list Codec.codepoint) :
  Counting.count_cp x (c :: rest)
  = (if (c =? x)%N then 1 else 0) + Counting.count_cp x rest.
Proof.
  unfold Counting.count_cp. simpl. rewrite (N.eqb_sym x c).
  destruct (c =? x)%N; reflexivity.
Qed.

Lemma unterminated_cons (c c' : Codec.codepoint) (rest : list Codec.codepoint) :
  Counting.unterminated (c :: c' :: rest) = Counting.unterminated (c' :: rest).
Proof. reflexivity. Qed.

(** Lines are line ends, a CR LF pair being one, plus a last line that
    was begun and not ended. *)
Lemma lines_from_formula (cs : list Codec.codepoint) :
  forall cur,
    List.length (Codec.lines_from cur cs) + Counting.crlf_pairs cs
    = Counting.count_cp Codec.LF cs + Counting.count_cp Codec.CR cs
      + match cs with
        | [] => match cur with [] => 0 | _ => 1 end
        | _ => if Counting.unterminated cs then 1 else 0
        end.
Proof.
  induction cs as [|c rest IH]; intros cur.
  - destruct cur; reflexivity.
  - rewrite !count_cp_cons. cbn [Counting.crlf_pairs].
    destruct (N.eq_dec c Codec.LF) as [->|Hlf].
    { specialize (IH []). cbn [Codec.lines_from].
      change (Codec.LF =? Codec.LF)%N with true.
      change (Codec.LF =? Codec.CR)%N with false.
      cbv iota. cbn [andb List.length].
      destruct rest as [|c' rest']; [simpl in *; lia|].
      rewrite unterminated_cons. lia. }
    destruct (N.eq_dec c Codec.CR) as [->|Hcr].
    { specialize (IH []). rewrite lines_from_cr.
      change (Codec.CR =? Codec.LF)%N with false.
      change (Codec.CR =? Codec.CR)%N with true.
      cbv iota. cbn [andb].
      destruct rest as [|c' rest']; [simpl in *; lia|].
      rewrite unterminated_cons. cbn [hd].
      destruct (c' =? Codec.LF)%N; lia. }
    rewrite lines_from_other by assumption.
    specialize (IH (c :: cur)).
    pose proof Hlf as Hlf'. pose proof Hcr as Hcr'.
    apply N.eqb_neq in Hlf', Hcr'. rewrite Hlf', Hcr'. cbn [andb].
    destruct rest as [|c' rest'].
    + unfold Counting.unterminated. cbn [last]. rewrite Hlf', Hcr'.
      simpl in *. lia.
    + rewrite unterminated_cons. lia.
Qed.

Lemma lines_from_bound (cs : list Codec.codepoint) :
  forall cur,
    List.length (Codec.lines_from cur cs)
    <= List.length cs + match cur with [] => 0 | _ => 1 end.
Proof.
  induction cs as [|c rest IH]; intros cur.
  - destruct cur; simpl; lia.
  - destruct (N.eq_dec c Codec.LF) as [->|Hlf].
    { specialize (IH []). simpl in *. destruct cur; lia. }
    destruct (N.eq_dec c Codec.CR) as [->|Hcr].
    { specialize (IH []). rewrite lines_from_cr. simpl in *.
      destruct (hd 0%N rest =? Codec.LF)%N; destruct cur; lia. }
    rewrite lines_from_other by assumption.
    specialize (IH (c :: cur)). simpl in *. destruct cur; lia.
Qed.

Lemma lines_from_some (cs : list Codec.codepoint) :
  forall cur,
    cs <> [] \/ cur <> [] -> 1 <= List.length (Codec.lines_from cur cs).
Proof.
  induction cs as [|c rest IH]; intros cur Hne.
  - destruct cur; simpl; [|lia]. destruct Hne as [H|H]; now elim H.
  - destruct (N.eq_dec c Codec.LF) as [->|Hlf]; [simpl; lia|].
    destruct (N.eq_dec c Codec.CR) as [->|Hcr].
    + rewrite lines_from_cr.
      destruct (hd 0%N rest =? Codec.LF)%N eqn:Hhd; [|lia].
      rewrite Nat.add_0_r. apply IH. left.
      destruct rest; [discriminate Hhd | discriminate].
    + rewrite lines_from_other by assumption.
      apply IH. right. discriminate.
Qed.

(** C2. The classifier walks the list UTF-8, Latin-1, Windows-1252 from
    left to right.  The first encoding under which the bytes decode is
    the one whose reading counts, and the result is the number of lines
    of that decoded text: its line feeds plus its carriage returns, a
    carriage return directly followed by a line feed being one line end
    and not two, plus one for a last line that is begun and has no line
    end.  The loop does the same for any list of encodings.  When every
    encoding of the list refuses the bytes, and when the file cannot be
    read at all, the result is [None]; the loop of [process_files] then
    records the file as "binary" without a line count and goes on: the
    classifier hands no exception to its caller. *)
Theorem count_lines_fallback_chain :
  (forall f bs tried enc later cs,
      content f = Some bs ->
      [Codec.UTF_8; Codec.LATIN_1; Codec.CP1252] = tried ++ enc :: later ->
      Forall (fun e => Codec.decode e bs = None) tried ->
      Codec.decode enc bs = Some cs ->
      exists n,
        count_lines f = Some n /\
        n = List.length (Codec.readlines cs) /\
        n + Counting.crlf_pairs cs
        = Counting.count_cp Codec.LF cs + Counting.count_cp Codec.CR cs
          + (if Counting.unterminated cs then 1 else 0)) /\
  (forall f encs,
      (forall bs tried enc later cs,
          content f = Some bs ->
          encs = tried ++ enc :: later ->
          Forall (fun e => Codec.decode e bs = None) tried ->
          Codec.decode enc bs = Some cs ->
          exists n,
            try_encodings encs f = Some n /\
            n = List.length (Codec.readlines cs) /\
            n + Counting.crlf_pairs cs
            = Counting.count_cp Codec.LF cs + Counting.count_cp Codec.CR cs
              + (if Counting.unterminated cs then 1 else 0)) /\
      (forall bs,
          content f = Some bs ->
          Forall (fun e => Codec.decode e bs = None) encs ->
          try_encodings encs f = None) /\
      (content f = None -> try_encodings encs f = None)) /\
  (forall f n acc idx nm s,
      count_lines f = None ->
      exists acc' s',
        loop_body n acc (idx, (nm, f)) s = (Ok acc', s') /\
        file_stats acc' = file_stats acc ++ [file_info nm f "binary" None]).
Proof.
  assert (Hloop : forall f encs bs tried enc later cs,
             content f = Some bs ->
             encs = tried ++ enc :: later ->
             Forall (fun e => Codec.decode e bs = None) tried ->
             Codec.decode enc bs = Some cs ->
             exists n,
               try_encodings encs f = Some n /\
               n = List.length (Codec.readlines cs) /\
               n + Counting.crlf_pairs cs
               = Counting.count_cp Codec.LF cs + Counting.count_cp Codec.CR cs
                 + (if Counting.unterminated cs then 1 else 0)).
  { intros f encs bs tried enc later cs Hc -> Hfail Hdec.
    eexists. split; [|split; [reflexivity|]].
    - now apply try_encodings_first_success with (bs := bs).
    - unfold Codec.readlines. rewrite (lines_from_formula cs []).
      destruct cs; reflexivity. }
  split; [|split].
  - intros f bs tried enc later cs Hc Hsplit Hfail Hdec.
    exact (Hloop f encodings bs tried enc later cs Hc Hsplit Hfail Hdec).
  - intros f encs. repeat split.
    + apply Hloop.
    + intros bs. apply try_encodings_all_fail.
    + apply try_encodings_io_error.
  - intros f n acc idx nm s Hnone.
    destruct (loop_body_spec n acc idx nm f s) as (acc' & Hrun & Hstats & _).
    exists acc'. eexists. split; [exact Hrun|].
    rewrite Hstats. unfold record_of. simpl. now rewrite Hnone.
Qed.

(** The bytes FF 0A 61 0D 0A 62 are not UTF-8; read as Latin-1 they are
    three lines: one ended by LF, one ended by CR LF, one not ended. *)
Lemma count_lines_fallback_chain_witness :
  (exists n,
      count_lines (file_data 6 (Some [xff; x0a; x61; x0d; x0a; x62])) = Some n /\
      n = 3 /\
      n + 1 = 2 + 1 + 1) /\
  try_encodings [Codec.UTF_8; Codec.CP1252] (file_data 2 (Some [xff; x81])) = None /\
  try_encodings encodings (file_data 2 None) = None /\
  exists acc' s',
    loop_body 1 acc0 (1, ("locked.dat", file_data 2 None)) initial = (Ok acc', s') /\
    file_stats acc'
    = file_stats acc0 ++ [file_info "locked.dat" (file_data 2 None) "binary" None].
Proof.
  destruct count_lines_fallback_chain as (Hcount & Hchain & Hloop).
  split; [|split; [|split]].
  - apply (Hcount (file_data 6 (Some [xff; x0a; x61; x0d; x0a; x62]))
                  [xff; x0a; x61; x0d; x0a; x62]
                  [Codec.UTF_8] Codec.LATIN_1 [Codec.CP1252]
                  [255; 10; 97; 13; 10; 98]%N).
    + reflexivity.
    + reflexivity.
    + repeat constructor.
    + reflexivity.
  - destruct (Hchain (file_data 2 (Some [xff; x81]))
                     [Codec.UTF_8; Codec.CP1252]) as (_ & Hall & _).
    apply (Hall [xff; x81]).
    + reflexivity.
    + repeat constructor.
  - destruct (Hchain (file_data 2 None) encodings) as (_ & _ & Hio).
    apply Hio. reflexivity.
  - apply Hloop. reflexivity.
Defined.

(** X2. An empty file that can be read is a text file of 0 lines; a
    file with at least one byte has at least one line and never more
    lines than bytes. *)
Theorem count_lines_bounds (f : FileData) (bs : list byte) :
  content f = Some bs ->
  exists n,
    count_lines f = Some n /\
    (n = 0 <-> bs = []) /\
    n <= List.length bs.
Proof.
  intros Hc. eexists. split; [exact (count_lines_bytes f bs Hc)|].
  unfold Codec.readlines. split; [split|].
  - intros Hzero. destruct bs as [|b bs]; [reflexivity|].
    pose proof (lines_from_some (map Codec.byte_val (b :: bs)) []) as Hsome.
    rewrite Hzero in Hsome. assert (1 <= 0); [|lia].
    apply Hsome. left. discriminate.
  - intros ->. reflexivity.
  - pose proof (lines_from_bound (map Codec.byte_val bs) []) as Hb.
    rewrite length_map in Hb. simpl in Hb. lia.
Qed.

Lemma count_lines_bounds_witness :
  exists n,
    count_lines (file_data 0 (Some [])) = Some n /\
    (n = 0 <-> @nil byte = []) /\
    n <= List.length (@nil byte).
Proof.
  apply (count_lines_bounds (file_data 0 (Some [])) []). reflexivity.
Defined.

(** X3. The number of lines of a readable file is the number of its LF
    bytes plus the number of its CR bytes, less one for every CR that is
    directly followed by an LF, plus one when the last byte is neither:
    a last line without line end counts. *)
Theorem count_lines_formula (f : FileData) (bs : list byte) :
  content f = Some bs ->
  exists n,
    count_lines f = Some n /\
    n + Counting.crlf_pairs (map Codec.byte_val bs)
    = Counting.count_cp Codec.LF (map Codec.byte_val bs)
      + Counting.count_cp Codec.CR (map Codec.byte_val bs)
      + (if Counting.unterminated (map Codec.byte_val bs) then 1 else 0).
Proof.
  intros Hc. eexists. split; [exact (count_lines_bytes f bs Hc)|].
  unfold Codec.readlines.
  rewrite (lines_from_formula (map Codec.byte_val bs) []).
  destruct (map Codec.byte_val bs); reflexivity.
Qed.

Lemma count_lines_formula_witness :
  exists n,
    count_lines (file_data 6 (Some [x61; x0d; x0a; x62; x0d; x63])) = Some n /\
    n + 1 = 1 + 2 + 1.
Proof.
  apply (count_lines_formula (file_data 6 (Some [x61; x0d; x0a; x62; x0d; x63]))
                             [x61; x0d; x0a; x62; x0d; x63]).
  reflexivity.
Defined.

(** ** More on the validator *)

Lemma in_files_of (items : list item) (nm : string) (fd : FileData) :
  In (nm, fd) (files_of items) <-> In (nm, RegFile fd) items.
Proof.
  unfold files_of. rewrite in_flat_map. split.
  - intros ([k n] & Hin & Hx). simpl in Hx.
    destruct n; simpl in Hx; try easy.
    destruct Hx as [Hx|[]]. now injection Hx as -> ->.
  - intros Hin. exists (nm, RegFile fd). split; [assumption|]. now left.
Qed.

Lemma spec_validate_ok_iff (w : World) :
  spec_validate w = Ok tt <->
  exists items,
    input_node w = Some (Directory true items) /\
    files_of items <> [] /\
    forallb (fun f => access_R (snd f)) (files_of items) = true.
Proof.
  unfold spec_validate, first_failure, checks_in_order, holds, listing.
  destruct (input_node w) as [[fd|r items|]|]; simpl;
    try (split; [discriminate | intros (items' & Hnode & _); discriminate]).
  destruct r; simpl.
  2:{ split; [discriminate | intros (items' & Hnode & _); discriminate]. }
  destruct (files_of items) as [|x files] eqn:Hfiles; simpl.
  { split; [discriminate|].
    intros (items' & Hnode & Hne & _). injection Hnode as <-. now elim Hne. }
  destruct (access_R (snd x) && forallb (fun f => access_R (snd f)) files)%bool
    eqn:Hall; simpl.
  - split; [|reflexivity]. intros _. exists items.
    rewrite Hfiles. simpl. repeat split; [discriminate | assumption].
  - split; [discriminate|].
    intros (items' & Hnode & _ & Hall'). injection Hnode as <-.
    rewrite Hfiles in Hall'. simpl in Hall'. congruence.
Qed.

(** X4. Validation passes exactly for an input path that is a readable
    directory holding at least one regular file directly, all of whose
    direct regular files are readable; what else the directory holds
    plays no part. *)
Theorem validate_inputs_passes_iff (w : World) (s : RunState) :
  validate_inputs w s = (Ok tt, s) <->
  exists items,
    input_node w = Some (Directory true items) /\
    (exists nm fd, In (nm, RegFile fd) items) /\
    (forall nm fd, In (nm, RegFile fd) items -> access_R fd = true).
Proof.
  rewrite validate_inputs_refines. split.
  - intros H. injection H as H. apply spec_validate_ok_iff in H.
    destruct H as (items & Hnode & Hne & Hall). exists items.
    split; [assumption|]. split.
    + destruct (files_of items) as [|[nm fd] files] eqn:Hfiles; [now elim Hne|].
      exists nm, fd. apply in_files_of. rewrite Hfiles. now left.
    + intros nm fd Hin. rewrite forallb_forall in Hall.
      apply (Hall (nm, fd)). now apply in_files_of.
  - intros (items & Hnode & (nm & fd & Hin) & Hall). f_equal.
    apply spec_validate_ok_iff. exists items. split; [assumption|]. split.
    + intros Hnil. apply in_files_of in Hin. rewrite Hnil in Hin. easy.
    + apply forallb_forall. intros [k f] Hk. simpl.
      apply (Hall k). now apply in_files_of.
Qed.

Lemma validate_inputs_passes_iff_witness :
  validate_inputs scenario initial = (Ok tt, initial).
Proof.
  apply (validate_inputs_passes_iff scenario initial).
  exists (listing scenario). split; [reflexivity|]. split.
  - exists "a.txt", (file_data 12 (Some (Codec.bytes_of ("line1" ++ nl ++ "line2" ++ nl)%string))).
    simpl. tauto.
  - intros nm fd [H|[H|[]]]; injection H as <- <-; reflexivity.
Defined.

(** X5. When some regular file of the input directory is not readable,
    validation fails on check 5 and its message lists, after
    "Cannot read files: ", the names of the unreadable regular files and
    no other name: readable files, subfolders and special entries are
    not listed. *)
Theorem unreadable_files_listed (w : World) (items : list item) (s : RunState) :
  input_node w = Some (Directory true items) ->
  (exists nm fd, In (nm, RegFile fd) items /\ access_R fd = false) ->
  exists names,
    validate_inputs w s
    = (Raise (ValidationError ("Cannot read files: " ++ join ", " names)%string), s) /\
    names <> [] /\
    forall nm,
      In nm names <-> exists fd, In (nm, RegFile fd) items /\ access_R fd = false.
Proof.
  intros Hnode (nm0 & fd0 & Hin0 & Hacc0).
  assert (Hlisted : forall nm,
             In nm (unreadable_of (files_of items)) <->
             exists fd, In (nm, RegFile fd) items /\ access_R fd = false).
  { intros nm. unfold unreadable_of. rewrite in_map_iff. split.
    - intros ([k fd] & <- & Hin). apply filter_In in Hin.
      destruct Hin as [Hin Hacc]. simpl in *. exists fd.
      split; [now apply in_files_of | now apply negb_true_iff].
    - intros (fd & Hin & Hacc). exists (nm, fd). split; [reflexivity|].
      apply filter_In. split; [now apply in_files_of|].
      simpl. now rewrite Hacc. }
  exists (unreadable_of (files_of items)).
  assert (Hne : unreadable_of (files_of items) <> []).
  { intros Hnil. assert (Hin : In nm0 (unreadable_of (files_of items))).
    { apply Hlisted. now exists fd0. }
    rewrite Hnil in Hin. easy. }
  split; [|split; assumption].
  unfold validate_inputs, iterdir, bind, raise, ret. rewrite Hnode. simpl.
  destruct (files_of items) as [|x files] eqn:Hfiles.
  { apply in_files_of in Hin0. rewrite Hfiles in Hin0. easy. }
  simpl List.length. cbv iota.
  destruct (unreadable_of (x :: files)); [now elim Hne | reflexivity].
Qed.

Lemma unreadable_files_listed_witness :
  exists names,
    validate_inputs
      (world_of (Some (Directory true
         [("ok.txt", a_txt);
          ("locked.txt", RegFile {| st_size := 3; st_mtime := "2024-05-01 10:00:00";
                                    access_R := false; content := None |});
          ("sub", Directory false [])])))
      initial
    = (Raise (ValidationError ("Cannot read files: " ++ join ", " names)%string),
       initial) /\
    names <> [] /\
    forall nm,
      In nm names <->
      exists fd,
        In (nm, RegFile fd)
           [("ok.txt", a_txt);
            ("locked.txt", RegFile {| st_size := 3; st_mtime := "2024-05-01 10:00:00";
                                      access_R := false; content := None |});
            ("sub", Directory false [])] /\
        access_R fd = false.
Proof.
  apply unreadable_files_listed.
  - reflexivity.
  - eexists. eexists. split; [right; left; reflexivity | reflexivity].
Defined.

(** X6. A readable directory with neither a regular file nor a
    subfolder directly in it is turned down with a message of two
    lines, "Input folder must contain at least 1 file(s)." and
    "Found: 0 file(s)"; the third line "The folder is completely empty."
    follows exactly when the directory has no entry at all.  The advice
    about subfolders is not given. *)
Theorem folderless_message (w : World) (items : list item) (s : RunState) :
  input_node w = Some (Directory true items) ->
  files_of items = [] ->
  folders_of items = [] ->
  validate_inputs w s
  = (Raise (ValidationError
              ("Input folder must contain at least 1 file(s)." ++ nl
               ++ "Found: 0 file(s)"
               ++ match items with
                  | [] => nl ++ "The folder is completely empty."
                  | _ :: _ => ""
                  end)%string), s).
Proof.
  intros Hnode Hfiles Hfolders.
  rewrite (validate_no_files w items s Hnode Hfiles).
  unfold msg_no_files. rewrite Hfiles, Hfolders.
  destruct items; reflexivity.
Qed.

Lemma folderless_message_witness :
  validate_inputs (world_of (Some (Directory true [("pipe", Special)]))) initial
  = (Raise (ValidationError
              ("Input folder must contain at least 1 file(s)." ++ nl
               ++ "Found: 0 file(s)")%string), initial).
Proof.
  apply (folderless_message (world_of (Some (Directory true [("pipe", Special)])))
                            [("pipe", Special)] initial); reflexivity.
Defined.

(** ** More on the aggregator *)

Section LoopInvariant.

Variable P : Acc -> Prop.
Variable n : nat.
Hypothesis body_keeps :
  forall acc it s acc' s',
    P acc -> loop_body n acc it s = (Ok acc', s') -> P acc'.

Lemma for_each_keeps (l : list (nat * (string * FileData))) :
  forall acc s acc' s',
    P acc -> for_each (loop_body n) l acc s = (Ok acc', s') -> P acc'.
Proof.
  induction l as [|it l IH]; intros acc s acc' s' Hinv Hrun; simpl in Hrun.
  - unfold ret in Hrun. now injection Hrun as <- <-.
  - unfold bind in Hrun.
    destruct (loop_body n acc it s) as [[acc1|e] s1] eqn:Hbody; [|discriminate].
    eapply IH; [|exact Hrun]. eapply body_keeps; eassumption.
Qed.

End LoopInvariant.

(** A summary comes from a readable directory and from the final values
    of the loop variables. *)
Lemma process_files_ok_inv (w : World) (s s' : RunState) (sm : Summary) :
  process_files w s = (Ok sm, s') ->
  exists items acc s0,
    input_node w = Some (Directory true items) /\
    for_each (loop_body (List.length (PathSort.sort (files_of items))))
             (enumerate (PathSort.sort (files_of items)) 1) acc0 s0
    = (Ok acc, s') /\
    files sm = file_stats acc /\
    total_files (statistics sm) = List.length (PathSort.sort (files_of items)) /\
    text_files (statistics sm) = acc_text_files acc /\
    binary_files (statistics sm) = acc_binary_files acc.
Proof.
  unfold process_files, iterdir, bind, raise, ret.
  destruct (input_node w) as [[fd|[] items|]|]; try discriminate.
  destruct (for_each _ _ acc0 s) as [[acc|e] s1] eqn:Hloop; [|discriminate].
  intros H. injection H as <- <-.
  exists items, acc, s. repeat split. exact Hloop.
Qed.

Lemma filter_snoc {A : Type} (p : A -> bool) (l : list A) (x : A) :
  List.length (filter p (l ++ [x]))
  = List.length (filter p l) + (if p x then 1 else 0).
Proof.
  rewrite filter_app, length_app. simpl. destruct (p x); reflexivity.
Qed.

(** X7. In every summary the number of text files is the number of
    records of type "text", the number of binary files is the number of
    records of type "binary", and the number of files is the number of
    records.  A record of type "text" has a line count, a record of type
    "binary" has none, and there is no third type. *)
Theorem summary_counts_by_type (w : World) (s s' : RunState) (sm : Summary) :
  process_files w s = (Ok sm, s') ->
  text_files (statistics sm) = List.length (filter is_text (files sm)) /\
  binary_files (statistics sm)
  = List.length (filter Counting.is_binary (files sm)) /\
  total_files (statistics sm) = List.length (files sm) /\
  Forall (fun r => (fr_type r = "text" /\ fr_line_count r <> None) \/
                   (fr_type r = "binary" /\ fr_line_count r = None))
         (files sm).
Proof.
  intros Hrun.
  destruct (process_files_ok_inv w s s' sm Hrun)
    as (items & acc & s0 & Hnode & Hloop & -> & -> & -> & ->).
  set (inv := fun a : Acc =>
                acc_text_files a = List.length (filter is_text (file_stats a)) /\
                acc_binary_files a
                = List.length (filter Counting.is_binary (file_stats a)) /\
                Forall (fun r => (fr_type r = "text" /\ fr_line_count r <> None) \/
                                 (fr_type r = "binary" /\ fr_line_count r = None))
                       (file_stats a)).
  assert (Hinv : inv acc).
  { eapply (for_each_keeps inv); [| |exact Hloop].
    - intros a [idx [nm f]] t a' t' (Htext & Hbin & Htyped) Hbody.
      destruct (loop_body_spec (List.length (PathSort.sort (files_of items)))
                               a idx nm f t)
        as (a1 & Hrun1 & Hstats & _ & _ & Htx & Hbn).
      rewrite Hrun1 in Hbody. injection Hbody as <- <-.
      unfold inv. rewrite Hstats, !filter_snoc, Htx, Hbn, Htext, Hbin.
      unfold record_of, is_text, Counting.is_binary. simpl.
      destruct (count_lines f) as [k|]; simpl;
        (split; [lia|]); (split; [lia|]);
        apply Forall_app; (split; [assumption|]);
        (constructor; [|constructor]).
      + left. split; [reflexivity | discriminate].
      + right. split; reflexivity.
    - unfold inv, acc0. simpl. auto. }
  destruct Hinv as (Htext & Hbin & Htyped).
  repeat split; try assumption.
  destruct (for_each_spec (List.length (PathSort.sort (files_of items)))
                          (PathSort.sort (files_of items)) 1 acc0 s0)
    as (acc' & Hrun' & Hstats).
  unfold enumerate in Hloop. rewrite Hrun' in Hloop. injection Hloop as -> _.
  rewrite Hstats. simpl. now rewrite length_map.
Qed.

Lemma summary_counts_by_type_witness :
  exists sm s',
    process_files scenario initial = (Ok sm, s') /\
    text_files (statistics sm) = List.length (filter is_text (files sm)) /\
    binary_files (statistics sm)
    = List.length (filter Counting.is_binary (files sm)) /\
    total_files (statistics sm) = List.length (files sm) /\
    Forall (fun r => (fr_type r = "text" /\ fr_line_count r <> None) \/
                     (fr_type r = "binary" /\ fr_line_count r = None))
           (files sm).
Proof.
  eexists. eexists. split; [vm_compute; reflexivity|].
  eapply (summary_counts_by_type scenario initial).
  vm_compute. reflexivity.
Defined.

Lemma files_of_count (items : list item) :
  List.length (files_of items)
  = List.length (filter (fun it => is_file (snd it)) items).
Proof.
  induction items as [|[nm n] items IH]; [reflexivity|].
  change ((nm, n) :: items) with ([(nm, n)] ++ items).
  rewrite files_of_app, length_app, IH. simpl.
  destruct n; reflexivity.
Qed.

(** X8. The records of a summary are those of the regular files that
    lie directly in the input directory, and of nothing else: each
    record carries the name, the size and the modification time of such
    a file together with the answer of [count_lines] for it, each such
    file has its record, and there are as many records as direct
    regular files.  Subfolders and special entries get no record. *)
Theorem records_are_regular_files
        (w : World) (items : list item) (s s' : RunState) (sm : Summary) :
  input_node w = Some (Directory true items) ->
  process_files w s = (Ok sm, s') ->
  (forall r,
      In r (files sm) <->
      exists nm fd,
        In (nm, RegFile fd) items /\
        fr_name r = nm /\
        fr_size_bytes r = st_size fd /\
        fr_modified r = st_mtime fd /\
        fr_line_count r = count_lines fd /\
        fr_type r = match count_lines fd with
                    | Some _ => "text"
                    | None => "binary"
                    end) /\
  List.length (files sm)
  = List.length (filter (fun it => is_file (snd it)) items).
Proof.
  intros Hnode Hrun.
  destruct (process_files_spec w items s Hnode) as (acc & _ & Hstats & Hrun').
  rewrite Hrun' in Hrun. injection Hrun as <- _. simpl. rewrite Hstats.
  split.
  - intros r. rewrite in_map_iff. split.
    + intros ([nm fd] & <- & Hin).
      apply (Permutation_in _ (Permutation_sym (PathSort.Permuted_sort _))) in Hin.
      exists nm, fd. split; [now apply in_files_of|].
      repeat split.
    + intros (nm & fd & Hin & Hname & Hsize & Hmod & Hcount & Htype).
      exists (nm, fd). split.
      * destruct r. unfold record_of, file_info. simpl in *. congruence.
      * apply (Permutation_in _ (PathSort.Permuted_sort _)).
        now apply in_files_of.
  - rewrite length_map, <- files_of_count.
    apply Permutation_length, Permutation_sym, PathSort.Permuted_sort.
Qed.

Lemma records_are_regular_files_witness :
  exists sm s',
    process_files scenario initial = (Ok sm, s') /\
    (forall r,
        In r (files sm) <->
        exists nm fd,
          In (nm, RegFile fd) (listing scenario) /\
          fr_name r = nm /\
          fr_size_bytes r = st_size fd /\
          fr_modified r = st_mtime fd /\
          fr_line_count r = count_lines fd /\
          fr_type r = match count_lines fd with
                      | Some _ => "text"
                      | None => "binary"
                      end) /\
    List.length (files sm)
    = List.length (filter (fun it => is_file (snd it)) (listing scenario)).
Proof.
  eexists. eexists. split; [vm_compute; reflexivity|].
  eapply (records_are_regular_files scenario (listing scenario) initial).
  - reflexivity.
  - vm_compute. reflexivity.
Defined.

(** ** More on the run *)

Lemma spec_validate_valid (w : World) :
  spec_validate w = Ok tt <-> Counting.valid_input w.
Proof.
  rewrite spec_validate_ok_iff. unfold Counting.valid_input.
  split; intros (items & Hnode & H1 & H2); exists items;
    (split; [assumption|]); split.
  - destruct (files_of items) as [|[nm fd] files] eqn:Hfiles; [now elim H1|].
    exists nm, fd. apply in_files_of. rewrite Hfiles. now left.
  - intros nm fd Hin. rewrite forallb_forall in H2.
    apply (H2 (nm, fd)). now apply in_files_of.
  - destruct H1 as (nm & fd & Hin). intros Hnil.
    apply in_files_of in Hin. rewrite Hnil in Hin. easy.
  - apply forallb_forall. intros [k f] Hk. simpl.
    apply (H2 k). now apply in_files_of.
Qed.

(** X9. What the exit statuses 0 and 1 tell.  A run returns 0 only
    when set-up did not raise, the input as set-up left it is a readable
    directory with at least one regular file and no unreadable one, and
    the summary was written without error.  A run returns 1 only when
    set-up did not raise and the input is not of that kind: status 1
    always means that a check of the validator failed, never that a
    file could not be read or the summary not be written. *)
Theorem run_status_conditions (w : World) (s s' : RunState) (code : nat) :
  run w s = (Ok code, s') ->
  (code = 0 ->
   setup_error w = None /\ Counting.valid_input w /\ write_error w = None) /\
  (code = 1 -> setup_error w = None /\ ~ Counting.valid_input w).
Proof.
  intros Hrun.
  destruct (setup_error w) as [e|] eqn:Hsetup.
  { rewrite (run_setup_fails w s e Hsetup) in Hrun. injection Hrun as <- <-.
    split; discriminate. }
  destruct (spec_validate w) as [[]|e] eqn:Hval.
  - pose proof (proj1 (spec_validate_valid w) Hval) as Hvalid.
    destruct (run_after_validation w s Hsetup Hval) as (sm & s1 & _ & Hrun').
    rewrite Hrun' in Hrun.
    destruct (write_error w) as [e|]; injection Hrun as <- <-.
    + split; discriminate.
    + split; [auto | discriminate].
  - destruct (spec_validate_raises w e Hval) as [m ->].
    rewrite (run_validation_fails w s m Hsetup Hval) in Hrun.
    injection Hrun as <- <-. split; [discriminate|].
    intros _. split; [reflexivity|].
    intros H. apply spec_validate_valid in H. congruence.
Qed.

Lemma run_status_conditions_witness :
  (0 = 0 ->
   setup_error scenario = None /\ Counting.valid_input scenario
   /\ write_error scenario = None) /\
  (0 = 1 -> setup_error scenario = None /\ ~ Counting.valid_input scenario).
Proof.
  apply (run_status_conditions scenario initial (snd (run scenario initial)) 0).
  vm_compute. reflexivity.
Defined.



(** ** Banners *)

Lemma string_length_app (a b : string) :
  String.length (a ++ b) = String.length a + String.length b.
Proof. induction a as [|x a IH]; simpl; [reflexivity | now rewrite IH]. Qed.

Lemma times_length (t : string) (n : nat) :
  String.length (Banner.times t n) = n * String.length t.
Proof.
  induction n as [|n IH]; simpl; [reflexivity|].
  now rewrite string_length_app, IH.
Qed.

Lemma string_app_nil_r (a : string) : (a ++ "")%string = a.
Proof. induction a as [|x a IH]; simpl; [reflexivity | now rewrite IH]. Qed.

Lemma print_banner_lines (text : string) (s : RunState) :
  Banner._print_banner text s
  = (Ok tt, {| log := log s ++ [Banner.times "=" 60; Banner.center text 60;
                                Banner.times "=" 60];
               summary_json := summary_json s |}).
Proof.
  unfold Banner._print_banner, Banner.BANNER_WIDTH, bind, logger_info.
  cbn [log summary_json]. rewrite <- !app_assoc. reflexivity.
Qed.

(** X11. A banner is three log lines: a rule of 60 "=", the text, and
    the same rule again; a separator is one line of 60 "-".  The text
    line is the text between two runs of spaces, the right one as long
    as the left one or one longer; it is 60 columns wide when the text
    has at most 60 characters, and a longer text is logged as it is,
    untruncated. *)
Theorem banner_is_centered (text : string) (s : RunState) :
  exists middle l r,
    Banner._print_banner text s
    = (Ok tt, {| log := log s ++ [Banner.times "=" 60; middle; Banner.times "=" 60];
                 summary_json := summary_json s |}) /\
    Banner._print_separator s
    = (Ok tt, {| log := log s ++ [Banner.times "-" 60];
                 summary_json := summary_json s |}) /\
    String.length (Banner.times "=" 60) = 60 /\
    String.length (Banner.times "-" 60) = 60 /\
    middle = (Banner.times " " l ++ text ++ Banner.times " " r)%string /\
    l <= r <= l + 1 /\
    String.length middle = Nat.max 60 (String.length text) /\
    (60 <= String.length text -> middle = text).
Proof.
  exists (Banner.center text 60). rewrite print_banner_lines.
  unfold Banner.center.
  destruct (60 <=? String.length text)%nat eqn:Hb.
  - pose proof (proj1 (Nat.leb_le _ _) Hb) as Hwide. exists 0, 0.
    split; [|split; [|split; [|split; [|split; [|split; [|split]]]]]].
    + reflexivity.
    + reflexivity.
    + reflexivity.
    + reflexivity.
    + simpl. now rewrite string_app_nil_r.
    + lia.
    + lia.
    + reflexivity.
  - pose proof (proj1 (Nat.leb_gt _ _) Hb) as Hwide.
    exists ((60 - String.length text) / 2),
           (60 - String.length text - (60 - String.length text) / 2).
    split; [|split; [|split; [|split; [|split; [|split; [|split]]]]]].
    + reflexivity.
    + reflexivity.
    + reflexivity.
    + reflexivity.
    + reflexivity.
    + pose proof (Nat.div_mod_eq (60 - String.length text) 2) as Hdiv.
      pose proof (Nat.mod_upper_bound (60 - String.length text) 2) as Hmod.
      lia.
    + rewrite !string_length_app, !times_length. simpl String.length.
      pose proof (Nat.div_mod_eq (60 - String.length text) 2) as Hdiv.
      pose proof (Nat.mod_upper_bound (60 - String.length text) 2) as Hmod.
      lia.
    + lia.
Qed.

Lemma banner_is_centered_witness :
  exists middle l r,
    Banner._print_banner "VALIDATION FAILED" initial
    = (Ok tt, {| log := log initial
                        ++ [Banner.times "=" 60; middle; Banner.times "=" 60];
                 summary_json := summary_json initial |}) /\
    Banner._print_separator initial
    = (Ok tt, {| log := log initial ++ [Banner.times "-" 60];
                 summary_json := summary_json initial |}) /\
    String.length (Banner.times "=" 60) = 60 /\
    String.length (Banner.times "-" 60) = 60 /\
    middle = (Banner.times " " l ++ "VALIDATION FAILED" ++ Banner.times " " r)%string /\
    l <= r <= l + 1 /\
    String.length middle = Nat.max 60 (String.length "VALIDATION FAILED") /\
    (60 <= String.length "VALIDATION FAILED" -> middle = "VALIDATION FAILED").
Proof.
  exact (banner_is_centered "VALIDATION FAILED" initial).
Defined.

(** ** A file that cannot be read *)

Lemma record_in_summary
      (w : World) (items : list item) (s s' : RunState) (sm : Summary)
      (nm : string) (fd : FileData) :
  input_node w = Some (Directory true items) ->
  process_files w s = (Ok sm, s') ->
  In (nm, RegFile fd) items ->
  In (record_of (nm, fd)) (files sm).
Proof.
  intros Hnode Hrun Hin.
  destruct (process_files_spec w items s Hnode) as (acc & _ & Hstats & Hrun').
  rewrite Hrun' in Hrun. injection Hrun as <- _. simpl. rewrite Hstats.
  apply in_map, (Permutation_in _ (PathSort.Permuted_sort _)).
  now apply in_files_of.
Qed.

(** X12. A file that passes the access check and then cannot be opened
    or read does not stop the run.  When logging is set up, the input is
    valid and the summary can be written, the run ends with status 0 and
    the summary it writes holds a record for that file, of type "binary"
    and without a line count. *)
Theorem read_failure_is_absorbed
        (w : World) (items : list item) (s : RunState)
        (nm : string) (fd : FileData) :
  setup_error w = None ->
  write_error w = None ->
  input_node w = Some (Directory true items) ->
  (forall k f, In (k, RegFile f) items -> access_R f = true) ->
  In (nm, RegFile fd) items ->
  content fd = None ->
  exists sm s',
    run w s = (Ok 0, s') /\
    summary_json s' = Some sm /\
    exists r,
      In r (files sm) /\
      fr_name r = nm /\ fr_type r = "binary" /\ fr_line_count r = None.
Proof.
  intros Hsetup Hwrite Hnode Hacc Hin Hcontent.
  assert (Hval : spec_validate w = Ok tt).
  { apply spec_validate_valid. exists items. split; [assumption|].
    split; [now exists nm, fd | assumption]. }
  destruct (run_after_validation w s Hsetup Hval) as (sm & s1 & Hproc & Hrun).
  rewrite Hwrite in Hrun.
  exists sm. eexists. split; [exact Hrun|]. split; [reflexivity|].
  exists (record_of (nm, fd)). split.
  - now apply (record_in_summary w items s s1).
  - unfold record_of. simpl.
    rewrite (try_encodings_io_error fd encodings Hcontent
             : count_lines fd = None).
    repeat split.
Qed.

Lemma read_failure_is_absorbed_witness :
  exists sm s',
    run (world_of (Some (Directory true
           [("a.txt", a_txt); ("gone.dat", RegFile (file_data 9 None))])))
        initial = (Ok 0, s') /\
    summary_json s' = Some sm /\
    exists r,
      In r (files sm) /\
      fr_name r = "gone.dat" /\ fr_type r = "binary" /\ fr_line_count r = None.
Proof.
  apply (read_failure_is_absorbed
           (world_of (Some (Directory true
              [("a.txt", a_txt); ("gone.dat", RegFile (file_data 9 None))])))
           [("a.txt", a_txt); ("gone.dat", RegFile (file_data 9 None))]
           initial "gone.dat" (file_data 9 None)).
  - reflexivity.
  - reflexivity.
  - reflexivity.
  - intros k f [H|[H|[]]]; injection H as <- <-; reflexivity.
  - simpl. tauto.
  - reflexivity.
Defined.
